(** * Minesweeper: a shallow embedding of the board engine

    The development follows [src/Minesweeper.h] and [src/Minesweeper.cpp].
    - [size_t] values are binary naturals ([N]); arithmetic that can wrap
      (the product [height_ * width_], the neighbour coordinate
      [cell.x + i] with [i] an [int]) is reduced modulo [2^64] explicitly.
    - The three [std::unordered_set<Cell, CellHash>] members are finite sets
      ([gset Cell]); the code only ever inserts, erases, tests membership,
      clears and takes the size of them, so iteration order is irrelevant.
    - [std::time(NULL)] is an input: every operation that may read the
      clock receives the reading(s) it would obtain.
    - [throw std::runtime_error(msg)] is the outcome [Thrown msg b], where
      [b] is the object state at the moment of the throw.
    - [std::shuffle(.., gen_)] is library code: the generator is an abstract
      type with a shuffle operation that returns a permutation. *)

From Stdlib Require Import Ascii String DecimalString.
From stdpp Require Import gmap strings list sorting.

Local Open Scope N_scope.

(** ** Machine integers *)

Definition size_t : Type := N.
Definition time_t : Type := Z.

(** [SIZE_MAX + 1] for a 64-bit [size_t]. *)
Definition size_t_modulus : N := 18446744073709551616.

Definition is_size_t (n : N) : Prop := n < size_t_modulus.

(** Unsigned multiplication [a * b] on [size_t]. *)
Definition size_t_mul (a b : size_t) : size_t := (a * b) mod size_t_modulus.

(** Conversion of an [int] to [size_t] (usual arithmetic conversions). *)
Definition int_to_size_t (i : Z) : size_t := Z.to_N (i mod Z.of_N size_t_modulus).

(** [x + i] for [x : size_t] and [i : int]: [i] is converted, the sum wraps. *)
Definition size_t_add_int (x : size_t) (i : Z) : size_t :=
  (x + int_to_size_t i) mod size_t_modulus.

(** [static_cast<int64_t>(n)]. *)
Definition static_cast_int64 (n : size_t) : Z :=
  if n <? 9223372036854775808 then Z.of_N n else Z.of_N n - Z.of_N size_t_modulus.

(** [std::to_string] on an unsigned value: its decimal representation. *)
Definition to_string (n : size_t) : string := NilEmpty.string_of_uint (N.to_uint n).

(** The half-open range [0, n) in increasing order, the index set of
    [for (size_t k = 0; k < n; ++k)]. *)
Definition range (n : size_t) : list size_t := N.of_nat <$> seq 0 (N.to_nat n).

(** ** Cells *)

Record Cell : Type := mkCell { x : size_t; y : size_t }.

#[global] Instance Cell_eq_dec : EqDecision Cell.
Proof. solve_decision. Defined.

#[global] Instance Cell_countable : Countable Cell.
Proof.
  refine (inj_countable' (λ c, (x c, y c)) (λ p, mkCell p.1 p.2) _).
  by intros [].
Defined.

(** ** Game status and outcomes *)

Inductive GameStatus : Type := NOT_STARTED | IN_PROGRESS | VICTORY | DEFEAT.

#[global] Instance GameStatus_eq_dec : EqDecision GameStatus.
Proof. solve_decision. Defined.

(** ** The random generator

    [std::shuffle(first, last, gen_)] permutes the range and advances the
    generator. Nothing else is assumed of it. *)
Class UniformRandomBitGenerator (G : Type) : Type := {
  shuffle : list Cell → G → list Cell * G;
  shuffle_Permutation : ∀ l g, (shuffle l g).1 ≡ₚ l
}.

(** A deterministic generator, used to run the model on concrete boards:
    its state counts the calls and its shuffle reverses the range. *)
#[global] Instance reversing_generator : UniformRandomBitGenerator nat.
Proof.
  refine {| shuffle := λ l g, (reverse l, S g) |}.
  intros l g. apply reverse_Permutation.
Defined.

(** ** The board *)

Record Minesweeper (G : Type) : Type := mkMinesweeper {
  width_ : size_t;
  height_ : size_t;
  start_time_ : time_t;
  finish_time_ : time_t;
  status_ : GameStatus;
  cells_with_mines_ : gset Cell;
  marked_cells_ : gset Cell;
  closed_cells_ : gset Cell;
  gen_ : G
}.
Arguments mkMinesweeper {G}.
Arguments width_ {G}.
Arguments height_ {G}.
Arguments start_time_ {G}.
Arguments finish_time_ {G}.
Arguments status_ {G}.
Arguments cells_with_mines_ {G}.
Arguments marked_cells_ {G}.
Arguments closed_cells_ {G}.
Arguments gen_ {G}.

(** The result of a member function that may throw. [OutOfFuel] is the
    model's own: the bounded unrolling of a [while] loop was too short
    (shown below never to happen). *)
Inductive Outcome (G : Type) : Type :=
  | Returned (b : Minesweeper G)
  | Thrown (what : string) (b : Minesweeper G)
  | OutOfFuel.
Arguments Returned {G}.
Arguments Thrown {G}.
Arguments OutOfFuel {G}.

(** ** The engine *)

Section Engine.
Context {G : Type} `{!UniformRandomBitGenerator G}.
Implicit Types (b : Minesweeper G) (cell cur c d : Cell) (q : list Cell).

(** *** Assignments to single members *)

Definition set_boundary (w h : size_t) b : Minesweeper G :=
  mkMinesweeper w h (start_time_ b) (finish_time_ b) (status_ b)
    (cells_with_mines_ b) (marked_cells_ b) (closed_cells_ b) (gen_ b).

Definition set_start (s : GameStatus) (t : time_t) b : Minesweeper G :=
  mkMinesweeper (width_ b) (height_ b) t (finish_time_ b) s
    (cells_with_mines_ b) (marked_cells_ b) (closed_cells_ b) (gen_ b).

Definition set_finish (s : GameStatus) (t : time_t) b : Minesweeper G :=
  mkMinesweeper (width_ b) (height_ b) (start_time_ b) t s
    (cells_with_mines_ b) (marked_cells_ b) (closed_cells_ b) (gen_ b).

Definition set_mines (m : gset Cell) (g : G) b : Minesweeper G :=
  mkMinesweeper (width_ b) (height_ b) (start_time_ b) (finish_time_ b) (status_ b)
    m (marked_cells_ b) (closed_cells_ b) g.

Definition set_marked (m : gset Cell) b : Minesweeper G :=
  mkMinesweeper (width_ b) (height_ b) (start_time_ b) (finish_time_ b) (status_ b)
    (cells_with_mines_ b) m (closed_cells_ b) (gen_ b).

Definition set_closed (s : gset Cell) b : Minesweeper G :=
  mkMinesweeper (width_ b) (height_ b) (start_time_ b) (finish_time_ b) (status_ b)
    (cells_with_mines_ b) (marked_cells_ b) s (gen_ b).

(** [std::copy(first, last, std::inserter(set, set.begin()))]: the elements
    are inserted one after the other. *)
Definition copy_into (s : gset Cell) (cells : list Cell) : gset Cell :=
  foldl (λ acc c, {[c]} ∪ acc) s cells.

(** *** Queries *)

Definition IsCorrectBoundary b cell : bool :=
  (0 <=? x cell) && (x cell <? width_ b) && (0 <=? y cell) && (y cell <? height_ b).

Definition IsMine b cell : bool := bool_decide (cell ∈ cells_with_mines_ b).
Definition IsMarked b cell : bool := bool_decide (cell ∈ marked_cells_ b).
Definition IsClosed b cell : bool := bool_decide (cell ∈ closed_cells_ b).
Definition IsOpened b cell : bool := negb (IsClosed b cell).

Definition IsFinishedGame b : bool :=
  bool_decide (status_ b = VICTORY) || bool_decide (status_ b = DEFEAT).

(** The values taken by [i] and [j] in [for (int i = -1; i <= 1; ++i)]. *)
Definition offsets : list Z := [-1; 0; 1]%Z.

(** [Cell{.x = cell.x + i, .y = cell.y + j}]. *)
Definition neighbor_cell cell (i j : Z) : Cell :=
  mkCell (size_t_add_int (x cell) i) (size_t_add_int (y cell) j).

Definition CalcMinesNear b cell : size_t :=
  foldl (λ result i,
    foldl (λ result j,
      let neighbor := neighbor_cell cell i j in
      if IsCorrectBoundary b neighbor && IsMine b neighbor
      then result + 1 else result) result offsets) 0 offsets.


(** [now] is the reading of [std::time(NULL)] in the IN_PROGRESS branch. *)
Definition GetGameTime (now : time_t) b : time_t :=
  match status_ b with
  | NOT_STARTED => 0%Z
  | IN_PROGRESS => (now - start_time_ b)%Z
  | _ => (finish_time_ b - start_time_ b)%Z
  end.

(** *** Set-up *)

Definition ResetValues b : Minesweeper G :=
  mkMinesweeper 0 0 0%Z 0%Z NOT_STARTED ∅ ∅ ∅ (gen_ b).

Definition SetNewBoundary (width height : size_t) b : Minesweeper G :=
  set_boundary width height b.

Definition FillClosed b : Minesweeper G :=
  set_closed
    (foldl (λ s y, foldl (λ s x, {[mkCell x y]} ∪ s) s (range (width_ b)))
       (closed_cells_ b) (range (height_ b))) b.

(** The vector [possible_mine] before the shuffle, column by column. *)
Definition possible_mine b : list Cell :=
  foldl (λ v x, foldl (λ v y, v ++ [mkCell x y]) v (range (height_ b)))
    [] (range (width_ b)).

(** The prefix [possible_mine.begin(), possible_mine.begin() + k) with
    [k = static_cast<int64_t>(mines_count)]; a negative [k] (undefined in
    C++, and only for counts no vector can hold) copies nothing. *)
Definition FillMines (mines_count : size_t) b : Minesweeper G :=
  if mines_count =? 0 then b
  else
    let sh := shuffle (possible_mine b) (gen_ b) in
    set_mines
      (copy_into (cells_with_mines_ b)
         (take (Z.to_nat (static_cast_int64 mines_count)) sh.1))
      sh.2 b.

Definition FieldDefinition_count (mines_count : size_t) b : Outcome G :=
  if size_t_mul (height_ b) (width_ b) <? mines_count
  then Thrown "Too many mines" b
  else Returned (FillClosed (FillMines mines_count b)).

Definition FieldDefinition_list (cells : list Cell) b : Outcome G :=
  if size_t_mul (height_ b) (width_ b) <? N.of_nat (length cells)
  then Thrown "Too many mines" b
  else if forallb (IsCorrectBoundary b) cells
  then Returned
         (FillClosed (set_mines (copy_into (cells_with_mines_ b) cells) (gen_ b) b))
  else Thrown "Incorrect mine position" b.

Definition NewGame_count (width height mines_count : size_t) b : Outcome G :=
  FieldDefinition_count mines_count (SetNewBoundary width height (ResetValues b)).

Definition NewGame_list (width height : size_t) (cells : list Cell) b : Outcome G :=
  FieldDefinition_list cells (SetNewBoundary width height (ResetValues b)).

(** The constructors: member initialisers, then [FieldDefinition]. [g] is
    the freshly seeded generator. *)
Definition Minesweeper_count (width height mines_count : size_t) (g : G) : Outcome G :=
  FieldDefinition_count mines_count
    (mkMinesweeper width height 0%Z 0%Z NOT_STARTED ∅ ∅ ∅ g).

Definition Minesweeper_list (width height : size_t) (cells : list Cell) (g : G) : Outcome G :=
  FieldDefinition_list cells
    (mkMinesweeper width height 0%Z 0%Z NOT_STARTED (list_to_set cells) ∅ ∅ g).

(** *** Status transitions *)

Definition StartGame (now : time_t) b : Minesweeper G := set_start IN_PROGRESS now b.

Definition Defeat (now : time_t) b : Minesweeper G := set_finish DEFEAT now b.

Definition VictoryCheck (now : time_t) b : Minesweeper G :=
  if bool_decide (size (closed_cells_ b) ≠ size (cells_with_mines_ b))
  then b
  else set_finish VICTORY now b.

Definition out_of_boundary : string := "A cell outside the field boundary".

Definition MarkCell (now : time_t) cell b : Outcome G :=
  if negb (IsCorrectBoundary b cell) then Thrown out_of_boundary b
  else if IsFinishedGame b then Returned b
  else
    let b := if bool_decide (status_ b = NOT_STARTED) then StartGame now b else b in
    if IsMarked b cell
    then Returned (set_marked (marked_cells_ b ∖ {[cell]}) b)
    else Returned (set_marked ({[cell]} ∪ marked_cells_ b) b).

(** *** Reveal *)

(** The body of the innermost loop of the flood fill for one neighbour:
    [q.push(neighbor_cell); closed_cells_.erase(neighbor_cell)] under the
    guard. The queue is a list, front first. *)
Definition visit (qb : list Cell * Minesweeper G) (neighbor : Cell)
    : list Cell * Minesweeper G :=
  let '(q, b) := qb in
  if IsCorrectBoundary b neighbor && IsClosed b neighbor && negb (IsMarked b neighbor)
  then (q ++ [neighbor], set_closed (closed_cells_ b ∖ {[neighbor]}) b)
  else qb.

(** The two nested [for] loops over [i] and [j]. *)
Definition expand cur (qb : list Cell * Minesweeper G) : list Cell * Minesweeper G :=
  foldl (λ qb i, foldl (λ qb j, visit qb (neighbor_cell cur i j)) qb offsets)
    qb offsets.

(** [while (!q.empty()) { ... }], unrolled at most [fuel] times. *)
Fixpoint flood (fuel : nat) q b {struct fuel} : option (Minesweeper G) :=
  match q with
  | [] => Some b
  | cur :: q =>
      match fuel with
      | O => None
      | S fuel =>
          let mines_near := CalcMinesNear b cur in
          let qb := if mines_near =? 0 then expand cur (q, b) else (q, b) in
          flood fuel qb.1 qb.2
      end
  end.

(** [t_start] is the clock reading of [StartGame], [t_finish] that of
    [Defeat] or [VictoryCheck]. Every iteration of the loop pops one cell
    and every push erases one closed cell, so the number of closed cells
    at the start bounds the number of iterations. *)
Definition OpenCell (t_start t_finish : time_t) cell b : Outcome G :=
  if negb (IsCorrectBoundary b cell) then Thrown out_of_boundary b
  else if IsFinishedGame b || IsMarked b cell || IsOpened b cell then Returned b
  else
    let b := if bool_decide (status_ b = NOT_STARTED) then StartGame t_start b else b in
    if IsMine b cell then Returned (Defeat t_finish b)
    else
      let fuel := size (closed_cells_ b) in
      match flood fuel [cell] (set_closed (closed_cells_ b ∖ {[cell]}) b) with
      | Some b => Returned (VictoryCheck t_finish b)
      | None => OutOfFuel
      end.

(** *** Rendering *)

Definition render_cell b cell : string :=
  if IsMine b cell && bool_decide (status_ b = DEFEAT) then "*"
  else if IsMarked b cell then "?"
  else if IsClosed b cell then "-"
  else
    let mines := CalcMinesNear b cell in
    if mines =? 0 then "." else to_string mines.

Definition RenderField b : list string :=
  (λ y, foldl (λ row x, row +:+ render_cell b (mkCell x y)) "" (range (width_ b)))
    <$> range (height_ b).

(** The nine cells that the two nested loops over [i] and [j] compute
    around [cell], in loop order (the cell itself is the fifth). *)
Definition neighbors cell : list Cell :=
  flat_map (λ i, map (λ j, neighbor_cell cell i j) offsets) offsets.

(** ** Reachable boards

    The boards a client can observe: the result of a successful [NewGame]
    on any board (the width and height are [size_t] values), followed by
    [OpenCell] and [MarkCell] calls. A call that throws leaves the board as
    it was, so only returning calls are listed. *)
Inductive reachable : Minesweeper G → Prop :=
  | reachable_NewGame_count b0 width height mines_count b :
      is_size_t width → is_size_t height →
      NewGame_count width height mines_count b0 = Returned b →
      reachable b
  | reachable_NewGame_list b0 width height cells b :
      is_size_t width → is_size_t height →
      NewGame_list width height cells b0 = Returned b →
      reachable b
  | reachable_OpenCell b t_start t_finish cell b' :
      reachable b →
      OpenCell t_start t_finish cell b = Returned b' →
      reachable b'
  | reachable_MarkCell b now cell b' :
      reachable b →
      MarkCell now cell b = Returned b' →
      reachable b'.

(** The board after the [if (status_ == NOT_STARTED) StartGame();] of
    [OpenCell] and [MarkCell]. *)
Definition started (now : time_t) b : Minesweeper G :=
  if bool_decide (status_ b = NOT_STARTED) then StartGame now b else b.

(** What holds of every reachable board: the sides are [size_t] values,
    mines are closed, closed cells are cells of the grid, a won game has
    as many closed cells as mines and some opened cell, and a running game
    with as many closed cells as mines has every cell of the grid closed. *)
Definition board_inv b : Prop :=
  is_size_t (width_ b) ∧ is_size_t (height_ b)
  ∧ cells_with_mines_ b ⊆ closed_cells_ b
  ∧ (∀ c, c ∈ closed_cells_ b → IsCorrectBoundary b c = true)
  ∧ (status_ b = VICTORY →
     size (closed_cells_ b) = size (cells_with_mines_ b)
     ∧ ∃ c, IsCorrectBoundary b c = true ∧ c ∉ closed_cells_ b)
  ∧ (status_ b ≠ VICTORY → status_ b ≠ DEFEAT →
     size (closed_cells_ b) = size (cells_with_mines_ b) →
     ∀ c, IsCorrectBoundary b c = true → c ∈ closed_cells_ b).

(** A board as a successful set-up leaves it. *)
Definition fresh (width height : size_t) b : Prop :=
  width_ b = width ∧ height_ b = height
  ∧ status_ b = NOT_STARTED ∧ start_time_ b = 0%Z ∧ finish_time_ b = 0%Z
  ∧ marked_cells_ b = ∅
  ∧ (∀ c, c ∈ closed_cells_ b ↔ IsCorrectBoundary b c = true)
  ∧ cells_with_mines_ b ⊆ closed_cells_ b.

(** ** The words of the specification *)

(** [d] is one of the up-to-8 cells adjacent to [c]: a different cell whose
    coordinates differ from those of [c] by at most one. *)
Definition adjacent c d : bool :=
  bool_decide (d ≠ c)
  && (Z.abs (Z.of_N (x d) - Z.of_N (x c)) <=? 1)%Z
  && (Z.abs (Z.of_N (y d) - Z.of_N (y c)) <=? 1)%Z.

(** Neighbor mine count: the number of mine cells among the in-bounds
    cells adjacent to [c]. *)
Definition neighbor_mine_count b c : nat :=
  size (filter (λ d, adjacent c d && IsCorrectBoundary b d) (cells_with_mines_ b)).

(** The decimal digit of a count below ten. *)
Definition digit_char (n : nat) : ascii := ascii_of_nat (48 + n).

(** The character of a cell in the rendered field, by precedence:
    mine on defeat, flagged, closed, neighbor mine count. *)
Definition cell_char b c : ascii :=
  if bool_decide (c ∈ cells_with_mines_ b ∧ status_ b = DEFEAT) then "*"%char
  else if bool_decide (c ∈ marked_cells_ b) then "?"%char
  else if bool_decide (c ∈ closed_cells_ b) then "-"%char
  else if bool_decide (neighbor_mine_count b c = 0%nat) then "."%char
  else digit_char (neighbor_mine_count b c).

(** A set-up failure reported as [ConfigError]. *)
Definition ConfigError (o : Outcome G) : Prop :=
  ∃ b, o = Thrown "Too many mines" b ∨ o = Thrown "Incorrect mine position" b.

(** ** Further members of the source *)

(** [Cell::operator==]: [std::tie(x, y) == std::tie(other.x, other.y)]. *)
Definition Cell_eqb (c other : Cell) : bool :=
  (x c =? x other) && (y c =? y other).

(** [CellHash::operator()]: [cell.x * val + cell.y] with [val = 1000000],
    computed in [size_t]. *)
Definition CellHash (cell : Cell) : size_t :=
  let val := 1000000 in
  (((x cell * val) mod size_t_modulus) + y cell) mod size_t_modulus.

(** The order of the status enum along the game: a game is not started,
    then in progress, then decided. *)
Definition status_rank (s : GameStatus) : nat :=
  match s with
  | NOT_STARTED => 0
  | IN_PROGRESS => 1
  | VICTORY | DEFEAT => 2
  end.

(** What holds of the flags and timestamps of every reachable board:
    flagged cells are cells of the grid, a game that is not decided has
    no finish time, and a game that is not started has no flag, no opened
    cell and no start time. *)
Definition board_inv_flags b : Prop :=
  (∀ c, c ∈ marked_cells_ b → IsCorrectBoundary b c = true)
  ∧ (IsFinishedGame b = false → finish_time_ b = 0%Z)
  ∧ (status_ b = NOT_STARTED →
     marked_cells_ b = ∅ ∧ start_time_ b = 0%Z
     ∧ ∀ c, IsCorrectBoundary b c = true → c ∈ closed_cells_ b).

End Engine.

(** ** Concrete boards

    Boards over the deterministic generator, on which the model is run. *)

(** A default-constructed object state, before any set-up. *)
Definition blank : Minesweeper nat :=
  mkMinesweeper 0 0 0%Z 0%Z NOT_STARTED ∅ ∅ ∅ O.

(** The board of an outcome, if the call returned. *)
Definition returned (o : Outcome nat) : Minesweeper nat :=
  match o with Returned b => b | _ => blank end.


(** 3x3 with a mine in the centre, untouched. *)
Definition centre_3x3 : Minesweeper nat :=
  returned (NewGame_list 3 3 [mkCell 1 1] blank).

(** 2x2 with a mine at (0,0), untouched. *)
Definition corner_2x2 : Minesweeper nat :=
  returned (NewGame_list 2 2 [mkCell 0 0] blank).

(** The 2x2 board after its mine at (0,0) was opened. *)
Definition lost_2x2 : Minesweeper nat :=
  returned (OpenCell 5%Z 7%Z (mkCell 0 0) corner_2x2).

(** 2x2 with mines at (0,0) and (1,1): the first is flagged, then the
    second is opened. *)
Definition two_mines_2x2 : Minesweeper nat :=
  returned (NewGame_list 2 2 [mkCell 0 0; mkCell 1 1] blank).

Definition flagged_2x2 : Minesweeper nat :=
  returned (MarkCell 3%Z (mkCell 0 0) two_mines_2x2).

Definition flagged_lost_2x2 : Minesweeper nat :=
  returned (OpenCell 5%Z 7%Z (mkCell 1 1) flagged_2x2).

(** 2x1 with a mine at (0,0): one safe cell is left to open. *)
Definition pair_2x1 : Minesweeper nat :=
  returned (NewGame_list 2 1 [mkCell 0 0] blank).

(** 3x3 without mines, untouched and after one click in a corner. *)
Definition empty_3x3 : Minesweeper nat :=
  returned (NewGame_list 3 3 [] blank).

Definition won_3x3 : Minesweeper nat :=
  returned (OpenCell 5%Z 7%Z (mkCell 0 0) empty_3x3).

(** * Properties *)

Section Properties.
Context {G : Type} `{!UniformRandomBitGenerator G}.
Implicit Types (b : Minesweeper G) (cell cur c d : Cell) (q : list Cell).


(** ** Ranges, wrap-around and sets *)

Lemma elem_of_range (n k : N) : k ∈ range n ↔ k < n.
Proof.
  unfold range. rewrite list_elem_of_fmap. split.
  - intros (i & -> & Hi). apply elem_of_seq in Hi. lia.
  - intros Hk. exists (N.to_nat k). split; [lia|]. apply elem_of_seq. lia.
Qed.

Lemma length_range (n : N) : length (range n) = N.to_nat n.
Proof. unfold range. by rewrite length_fmap, length_seq. Qed.

Lemma lookup_range (n k : N) : k < n → range n !! N.to_nat k = Some k.
Proof.
  intros Hk. unfold range. rewrite list_lookup_fmap, lookup_seq_lt by lia.
  simpl. f_equal. lia.
Qed.

Lemma size_t_add_int_0 (a : N) : is_size_t a → size_t_add_int a 0 = a.
Proof.
  unfold is_size_t, size_t_add_int, size_t_modulus. intros Ha.
  change (int_to_size_t 0) with 0. rewrite N.add_0_r. by apply N.mod_small.
Qed.

Lemma size_t_add_int_1 (a : N) :
  is_size_t (a + 1) → size_t_add_int a 1 = a + 1.
Proof.
  unfold is_size_t, size_t_add_int, size_t_modulus. intros Ha.
  change (int_to_size_t 1) with 1. by apply N.mod_small.
Qed.

Lemma size_t_add_int_m1_pos (a : N) :
  is_size_t a → 0 < a → size_t_add_int a (-1) = a - 1.
Proof.
  unfold is_size_t, size_t_add_int, size_t_modulus. intros Ha Hpos.
  change (int_to_size_t (-1)) with 18446744073709551615.
  replace (a + 18446744073709551615) with ((a - 1) + 1 * 18446744073709551616) by lia.
  rewrite N.Div0.mod_add. apply N.mod_small. lia.
Qed.

Lemma size_t_add_int_m1_0 : size_t_add_int 0 (-1) = 18446744073709551615.
Proof. reflexivity. Qed.

Lemma size_t_add_int_lt (a : N) (i : Z) : is_size_t (size_t_add_int a i).
Proof. unfold is_size_t, size_t_add_int. by apply N.mod_lt. Qed.

Lemma size_t_mul_le (a b : N) : size_t_mul a b ≤ a * b.
Proof. unfold size_t_mul. by apply N.Div0.mod_le. Qed.

Lemma size_t_mul_small (a b : N) : is_size_t (a * b) → size_t_mul a b = a * b.
Proof. unfold size_t_mul. apply N.mod_small. Qed.

Lemma elem_of_copy_into (s : gset Cell) (cells : list Cell) c :
  c ∈ copy_into s cells ↔ c ∈ s ∨ c ∈ cells.
Proof.
  unfold copy_into. revert s. induction cells as [|a l IH]; intros s; simpl.
  - set_solver.
  - rewrite IH. set_solver.
Qed.

Lemma copy_into_list_to_set (s : gset Cell) (cells : list Cell) :
  copy_into s cells = list_to_set cells ∪ s.
Proof. apply set_eq. intros c. rewrite elem_of_copy_into. set_solver. Qed.

Lemma size_list_to_set_le (l : list Cell) :
  (size (list_to_set l : gset Cell) ≤ length l)%nat.
Proof.
  induction l as [|a l IH].
  - rewrite list_to_set_nil, size_empty. simpl. lia.
  - rewrite list_to_set_cons, size_union_alt, size_singleton.
    assert (size (list_to_set l ∖ {[a]} : gset Cell) ≤ size (list_to_set l : gset Cell))%nat
      by (apply subseteq_size; set_solver).
    simpl. lia.
Qed.

(** ** Queries and set-up *)

Lemma Cell_eta c : mkCell (x c) (y c) = c.
Proof. by destruct c. Qed.

Lemma IsCorrectBoundary_true b c :
  IsCorrectBoundary b c = true ↔ x c < width_ b ∧ y c < height_ b.
Proof.
  unfold IsCorrectBoundary.
  rewrite !andb_true_iff, !N.leb_le, !N.ltb_lt. split; [tauto|].
  intros [? ?]. repeat split; auto using N.le_0_l.
Qed.

Lemma IsCorrectBoundary_false b c :
  IsCorrectBoundary b c = false ↔ ¬ (x c < width_ b ∧ y c < height_ b).
Proof. rewrite <- IsCorrectBoundary_true. by destruct (IsCorrectBoundary b c). Qed.

Lemma IsCorrectBoundary_ext b b' c :
  width_ b' = width_ b → height_ b' = height_ b →
  IsCorrectBoundary b' c = IsCorrectBoundary b c.
Proof. unfold IsCorrectBoundary. by intros -> ->. Qed.

Lemma IsMine_true b c : IsMine b c = true ↔ c ∈ cells_with_mines_ b.
Proof. unfold IsMine. by rewrite bool_decide_eq_true. Qed.

Lemma IsMarked_true b c : IsMarked b c = true ↔ c ∈ marked_cells_ b.
Proof. unfold IsMarked. by rewrite bool_decide_eq_true. Qed.

Lemma IsClosed_true b c : IsClosed b c = true ↔ c ∈ closed_cells_ b.
Proof. unfold IsClosed. by rewrite bool_decide_eq_true. Qed.

Lemma IsFinishedGame_true b :
  IsFinishedGame b = true ↔ status_ b = VICTORY ∨ status_ b = DEFEAT.
Proof.
  unfold IsFinishedGame. by rewrite orb_true_iff, !bool_decide_eq_true.
Qed.

Lemma IsFinishedGame_false b :
  IsFinishedGame b = false ↔ status_ b = NOT_STARTED ∨ status_ b = IN_PROGRESS.
Proof.
  unfold IsFinishedGame. rewrite orb_false_iff, !bool_decide_eq_false.
  destruct (status_ b); naive_solver.
Qed.

Lemma elem_of_fill_row (s : gset Cell) (row : N) (cols : list N) c :
  c ∈ foldl (λ s col, {[mkCell col row]} ∪ s) s cols
  ↔ c ∈ s ∨ (y c = row ∧ x c ∈ cols).
Proof.
  revert s. induction cols as [|a l IH]; intros s; simpl.
  - rewrite elem_of_nil. tauto.
  - rewrite IH, elem_of_union, elem_of_singleton, elem_of_cons.
    split; [intros [[->|?]|?]; simpl; tauto|].
    intros [?|[<- [<-|?]]]; rewrite ?Cell_eta; tauto.
Qed.

Lemma elem_of_fill_rows (s : gset Cell) (w : N) (rows : list N) c :
  c ∈ foldl (λ s row, foldl (λ s col, {[mkCell col row]} ∪ s) s (range w)) s rows
  ↔ c ∈ s ∨ (y c ∈ rows ∧ x c < w).
Proof.
  revert s. induction rows as [|a l IH]; intros s; simpl.
  - rewrite elem_of_nil. tauto.
  - rewrite IH, elem_of_fill_row, elem_of_range, elem_of_cons. tauto.
Qed.

Lemma elem_of_closed_FillClosed b c :
  c ∈ closed_cells_ (FillClosed b)
  ↔ c ∈ closed_cells_ b ∨ IsCorrectBoundary b c = true.
Proof.
  unfold FillClosed. simpl.
  rewrite elem_of_fill_rows, elem_of_range, IsCorrectBoundary_true. tauto.
Qed.

Lemma elem_of_fill_col (v : list Cell) (col : N) (rows : list N) c :
  c ∈ foldl (λ v row, v ++ [mkCell col row]) v rows
  ↔ c ∈ v ∨ (x c = col ∧ y c ∈ rows).
Proof.
  revert v. induction rows as [|a l IH]; intros v; simpl.
  - rewrite elem_of_nil. tauto.
  - rewrite IH, elem_of_app, list_elem_of_singleton, elem_of_cons.
    split; [intros [[?| ->]|?]; simpl; tauto|].
    intros [?|[<- [<-|?]]]; rewrite ?Cell_eta; tauto.
Qed.

Lemma elem_of_fill_cols (v : list Cell) (h : N) (cols : list N) c :
  c ∈ foldl (λ v col, foldl (λ v row, v ++ [mkCell col row]) v (range h)) v cols
  ↔ c ∈ v ∨ (x c ∈ cols ∧ y c < h).
Proof.
  revert v. induction cols as [|a l IH]; intros v; simpl.
  - rewrite elem_of_nil. tauto.
  - rewrite IH, elem_of_fill_col, elem_of_range, elem_of_cons. tauto.
Qed.

Lemma elem_of_possible_mine b c :
  c ∈ possible_mine b ↔ IsCorrectBoundary b c = true.
Proof.
  unfold possible_mine.
  rewrite elem_of_fill_cols, elem_of_range, elem_of_nil, IsCorrectBoundary_true.
  tauto.
Qed.

(** What [FillMines] leaves in the mine set: old mines and cells of the grid. *)
Lemma elem_of_mines_FillMines (mines_count : N) b c :
  c ∈ cells_with_mines_ (FillMines mines_count b) →
  c ∈ cells_with_mines_ b ∨ IsCorrectBoundary b c = true.
Proof.
  unfold FillMines. destruct (mines_count =? 0); [tauto|]. simpl.
  rewrite elem_of_copy_into. intros [?|Hc]; [tauto|]. right.
  apply elem_of_possible_mine.
  rewrite <- (shuffle_Permutation (possible_mine b) (gen_ b)).
  by eapply subseteq_take.
Qed.

Lemma size_mines_FillMines (mines_count : N) b :
  cells_with_mines_ b = ∅ →
  (N.of_nat (size (cells_with_mines_ (FillMines mines_count b))) ≤ mines_count).
Proof.
  intros Hm. unfold FillMines. destruct (mines_count =? 0) eqn:E.
  - rewrite Hm, size_empty. lia.
  - simpl. rewrite Hm, copy_into_list_to_set, (right_id_L ∅ (∪)).
    pose proof (size_list_to_set_le
      (take (Z.to_nat (static_cast_int64 mines_count))
         (shuffle (possible_mine b) (gen_ b)).1)) as Hle.
    rewrite length_take in Hle.
    assert (Z.to_nat (static_cast_int64 mines_count) ≤ N.to_nat mines_count)%nat.
    { unfold static_cast_int64, size_t_modulus. case_match; lia. }
    lia.
Qed.

Lemma FillMines_frame (mines_count : N) b :
  let b' := FillMines mines_count b in
  width_ b' = width_ b ∧ height_ b' = height_ b ∧ status_ b' = status_ b
  ∧ marked_cells_ b' = marked_cells_ b ∧ closed_cells_ b' = closed_cells_ b
  ∧ start_time_ b' = start_time_ b ∧ finish_time_ b' = finish_time_ b.
Proof. unfold FillMines. by destruct (mines_count =? 0). Qed.

(** ** The neighbour loops *)

Lemma expand_neighbors cur (qb : list Cell * Minesweeper G) :
  expand cur qb = foldl visit qb (neighbors cur).
Proof. reflexivity. Qed.

Lemma foldl_count (P : Cell → bool) (l : list Cell) (r : N) :
  foldl (λ result n, if P n then result + 1 else result) r l
  = r + N.of_nat (length (filter (λ n, P n = true) l)).
Proof.
  revert r. induction l as [|a l IH]; intros r; simpl.
  - lia.
  - rewrite IH, filter_cons. destruct (P a) eqn:E.
    + rewrite decide_True by done. simpl. lia.
    + rewrite decide_False by congruence. done.
Qed.

Lemma CalcMinesNear_neighbors b c :
  CalcMinesNear b c
  = N.of_nat (length (filter (λ n, IsCorrectBoundary b n && IsMine b n = true)
                        (neighbors c))).
Proof.
  rewrite <- (N.add_0_l (N.of_nat _)).
  rewrite <- (foldl_count (λ n, IsCorrectBoundary b n && IsMine b n)).
  reflexivity.
Qed.

Lemma CalcMinesNear_ext b b' c :
  width_ b' = width_ b → height_ b' = height_ b →
  cells_with_mines_ b' = cells_with_mines_ b →
  CalcMinesNear b' c = CalcMinesNear b c.
Proof.
  intros Hw Hh Hm. unfold CalcMinesNear, IsCorrectBoundary, IsMine.
  by rewrite Hw, Hh, Hm.
Qed.

(** A cell with no mine counted around it has no in-bounds mine among
    the cells its loops visit. *)
Lemma CalcMinesNear_0 b c n :
  CalcMinesNear b c = 0 → n ∈ neighbors c →
  IsCorrectBoundary b n = true → n ∉ cells_with_mines_ b.
Proof.
  rewrite CalcMinesNear_neighbors. intros H0 Hn Hb Hm.
  assert (Hnil : filter (λ n, IsCorrectBoundary b n && IsMine b n = true)
                   (neighbors c) = []).
  { apply length_zero_iff_nil. lia. }
  eapply (filter_nil_not_elem_of _ _ n Hnil); [|done].
  rewrite Hb. simpl. by apply IsMine_true.
Qed.

Lemma CalcMinesNear_le_9 b c : CalcMinesNear b c ≤ 9.
Proof.
  rewrite CalcMinesNear_neighbors.
  pose proof (length_filter (λ n, IsCorrectBoundary b n && IsMine b n = true)
                (neighbors c)) as Hle.
  change (length (neighbors c)) with 9%nat in Hle. lia.
Qed.

(** The effect of visiting a list of neighbours: the only member that
    changes is the closed set; the cells erased are exactly the cells
    appended to the queue; they are cells of the list inside the grid,
    closed and not flagged before; every such cell of the list is erased. *)
Lemma foldl_visit (l : list Cell) q b :
  ∃ (X : gset Cell) (added : list Cell),
    foldl visit (q, b) l = (q ++ added, set_closed X b)
    ∧ X ⊆ closed_cells_ b
    ∧ (∀ c, c ∈ added ↔ c ∈ closed_cells_ b ∧ c ∉ X)
    ∧ (∀ c, c ∈ added →
         c ∈ l ∧ IsCorrectBoundary b c = true ∧ c ∉ marked_cells_ b)
    ∧ (∀ n, n ∈ l → IsCorrectBoundary b n = true → n ∉ marked_cells_ b → n ∉ X)
    ∧ (length added + size X = size (closed_cells_ b))%nat.
Proof.
  revert q b. induction l as [|n l IH]; intros q b.
  - exists (closed_cells_ b), []. simpl. rewrite (right_id_L [] (++)).
    split_and!; [by destruct b|done| |by intros ? ?%elem_of_nil
                |by intros ? ?%elem_of_nil|done].
    intros c. rewrite elem_of_nil. tauto.
  - simpl.
    destruct (IsCorrectBoundary b n && IsClosed b n && negb (IsMarked b n)) eqn:E.
    + apply andb_true_iff in E as [E Hmk]. apply andb_true_iff in E as [Hbd Hcl].
      apply IsClosed_true in Hcl. apply negb_true_iff in Hmk.
      assert (Hnm : n ∉ marked_cells_ b).
      { intros Hn%IsMarked_true. congruence. }
      destruct (IH (q ++ [n]) (set_closed (closed_cells_ b ∖ {[n]}) b))
        as (X & added & Heq & Hsub & Hadd & Hin & Hall & Hsz).
      simpl in *. exists X, (n :: added). rewrite Heq.
      split_and!.
      * by rewrite <- (assoc_L (++)).
      * set_solver.
      * intros c. rewrite elem_of_cons, Hadd. split.
        -- intros [->|?]; set_solver.
        -- intros [? ?]. destruct (decide (c = n)); set_solver.
      * intros c [->|Hc]%elem_of_cons.
        -- split_and!; [left|done|done].
        -- destruct (Hin c Hc) as (? & ? & ?). split_and!; [by right|done|done].
      * intros m [->|Hm]%elem_of_cons ? ?; [set_solver|by apply Hall].
      * rewrite size_difference in Hsz by set_solver.
        rewrite size_singleton in Hsz.
        assert (size (closed_cells_ b) ≠ 0)%nat.
        { intros Hz%size_empty_inv. set_solver. }
        simpl. lia.
    + destruct (IH q b) as (X & added & Heq & Hsub & Hadd & Hin & Hall & Hsz).
      exists X, added. rewrite Heq. split_and!; try done.
      * intros c Hc. destruct (Hin c Hc) as (? & ? & ?).
        split_and!; [by right|done|done].
      * intros m [->|Hm]%elem_of_cons Hb Hmk; [|by apply Hall].
        rewrite Hb in E. simpl in E.
        apply andb_false_iff in E as [E|E].
        -- intros Hx. apply Hsub, IsClosed_true in Hx. congruence.
        -- apply negb_false_iff, IsMarked_true in E. done.
Qed.

(** ** The flood fill *)

Lemma set_closed_id b : set_closed (closed_cells_ b) b = b.
Proof. by destruct b. Qed.

(** The loop ends within the fuel [OpenCell] gives it: every iteration
    lowers [length q + size closed_cells_] by one. *)
Lemma flood_terminates (fuel : nat) q b :
  (length q + size (closed_cells_ b) ≤ fuel)%nat → is_Some (flood fuel q b).
Proof.
  revert q b. induction fuel as [|fuel IH]; intros q b Hfuel.
  - destruct q; [by eexists|]. simpl in Hfuel. lia.
  - destruct q as [|cur q]; [by eexists|]. simpl.
    destruct (CalcMinesNear b cur =? 0).
    + rewrite expand_neighbors.
      destruct (foldl_visit (neighbors cur) q b)
        as (X & added & -> & _ & _ & _ & _ & Hsz).
      apply IH. simpl in *. rewrite length_app. lia.
    + apply IH. simpl in *. lia.
Qed.

(** The loop rule: a property of the queue and the closed set that holds
    at the start and is kept by one iteration holds, with an empty queue,
    of the board the loop ends with. The other members never change. *)
Lemma flood_rule (P : list Cell → gset Cell → Prop) (b0 : Minesweeper G) :
  (∀ cur q X, P (cur :: q) X → CalcMinesNear b0 cur ≠ 0 → P q X) →
  (∀ cur q X X' added,
     P (cur :: q) X → CalcMinesNear b0 cur = 0 →
     X' ⊆ X →
     (∀ c, c ∈ added ↔ c ∈ X ∧ c ∉ X') →
     (∀ c, c ∈ added →
        c ∈ neighbors cur ∧ IsCorrectBoundary b0 c = true ∧ c ∉ marked_cells_ b0) →
     (∀ n, n ∈ neighbors cur → IsCorrectBoundary b0 n = true →
        n ∉ marked_cells_ b0 → n ∉ X') →
     P (q ++ added) X') →
  ∀ fuel q X b',
    P q X → flood fuel q (set_closed X b0) = Some b' →
    ∃ X', b' = set_closed X' b0 ∧ P [] X'.
Proof.
  intros Hskip Hexpand fuel.
  induction fuel as [|fuel IH]; intros q X b' HP Hrun.
  - destruct q; [|done]. simpl in Hrun. injection Hrun as <-. eauto.
  - destruct q as [|cur q]; simpl in Hrun; [injection Hrun as <-; eauto|].
    change (CalcMinesNear (set_closed X b0) cur) with (CalcMinesNear b0 cur) in Hrun.
    destruct (CalcMinesNear b0 cur =? 0) eqn:E.
    + apply N.eqb_eq in E. rewrite expand_neighbors in Hrun.
      destruct (foldl_visit (neighbors cur) q (set_closed X b0))
        as (X' & added & Heq & Hsub & Hadd & Hin & Hall & _).
      rewrite Heq in Hrun. simpl in *.
      eapply (IH _ X'); [|exact Hrun]. eapply Hexpand; eauto.
    + apply N.eqb_neq in E. simpl in Hrun. eapply IH; [|exact Hrun]. eauto.
Qed.

(** What a flood fill can erase: only cells of the grid that were closed,
    are not flagged and hold no mine. *)
Lemma flood_erases (fuel : nat) q b b' :
  flood fuel q b = Some b' →
  ∃ X, b' = set_closed X b ∧ X ⊆ closed_cells_ b
    ∧ ∀ c, c ∈ closed_cells_ b → c ∉ X →
        IsCorrectBoundary b c = true ∧ (c ∉ marked_cells_ b)
        ∧ (c ∉ cells_with_mines_ b).
Proof.
  intros Hrun. rewrite <- (set_closed_id b) in Hrun.
  eapply (flood_rule (λ _ X, X ⊆ closed_cells_ b
            ∧ ∀ c, c ∈ closed_cells_ b → c ∉ X →
                IsCorrectBoundary b c = true ∧ (c ∉ marked_cells_ b)
                ∧ (c ∉ cells_with_mines_ b))) in Hrun; [done|..].
  - auto.
  - intros cur q0 X X' added [HX Hold] H0 Hsub Hadd Hin _. split; [set_solver|].
    intros c Hc HcX'. destruct (decide (c ∈ X)) as [HcX|HcX]; [|by apply Hold].
    destruct (Hin c) as (Hn & Hb & Hm); [by apply Hadd|].
    split_and!; [done|done|]. by eapply CalcMinesNear_0.
  - split; [done|]. intros c ? ?. done.
Qed.

(** ** [OpenCell] and [MarkCell], case by case *)

Lemma OpenCell_started t_start t_finish cell b :
  OpenCell t_start t_finish cell b =
    if negb (IsCorrectBoundary b cell) then Thrown out_of_boundary b
    else if IsFinishedGame b || IsMarked b cell || IsOpened b cell then Returned b
    else if IsMine b cell then Returned (Defeat t_finish (started t_start b))
    else match flood (size (closed_cells_ b)) [cell]
                 (set_closed (closed_cells_ b ∖ {[cell]}) (started t_start b)) with
         | Some b => Returned (VictoryCheck t_finish b)
         | None => OutOfFuel
         end.
Proof.
  unfold OpenCell, started. by destruct (bool_decide (status_ b = NOT_STARTED)).
Qed.

Lemma started_frame now b :
  width_ (started now b) = width_ b ∧ height_ (started now b) = height_ b
  ∧ cells_with_mines_ (started now b) = cells_with_mines_ b
  ∧ marked_cells_ (started now b) = marked_cells_ b
  ∧ closed_cells_ (started now b) = closed_cells_ b
  ∧ gen_ (started now b) = gen_ b
  ∧ finish_time_ (started now b) = finish_time_ b.
Proof. unfold started. by case_bool_decide. Qed.

Lemma started_status now b :
  IsFinishedGame b = false → status_ (started now b) = IN_PROGRESS.
Proof.
  intros [Hs|Hs]%IsFinishedGame_false; unfold started; rewrite Hs; by simpl.
Qed.

(** The four ways an [OpenCell] call can go. *)
Lemma OpenCell_cases t_start t_finish cell b :
  (IsCorrectBoundary b cell = false
   ∧ OpenCell t_start t_finish cell b = Thrown out_of_boundary b)
  ∨ (IsCorrectBoundary b cell = true
     ∧ (IsFinishedGame b = true ∨ cell ∈ marked_cells_ b ∨ cell ∉ closed_cells_ b)
     ∧ OpenCell t_start t_finish cell b = Returned b)
  ∨ (IsCorrectBoundary b cell = true ∧ IsFinishedGame b = false
     ∧ (cell ∉ marked_cells_ b) ∧ cell ∈ closed_cells_ b
     ∧ cell ∈ cells_with_mines_ b
     ∧ OpenCell t_start t_finish cell b = Returned (Defeat t_finish (started t_start b)))
  ∨ (IsCorrectBoundary b cell = true ∧ IsFinishedGame b = false
     ∧ (cell ∉ marked_cells_ b) ∧ cell ∈ closed_cells_ b
     ∧ (cell ∉ cells_with_mines_ b)
     ∧ ∃ X, X ⊆ closed_cells_ b ∖ {[cell]}
         ∧ (∀ c, c ∈ closed_cells_ b → c ∉ X →
              IsCorrectBoundary b c = true ∧ (c ∉ marked_cells_ b)
              ∧ (c ∉ cells_with_mines_ b))
         ∧ flood (size (closed_cells_ b)) [cell]
             (set_closed (closed_cells_ b ∖ {[cell]}) (started t_start b))
           = Some (set_closed X (started t_start b))
         ∧ OpenCell t_start t_finish cell b
           = Returned (VictoryCheck t_finish (set_closed X (started t_start b)))).
Proof.
  rewrite OpenCell_started.
  destruct (IsCorrectBoundary b cell) eqn:Hb; simpl; [right|by left].
  destruct (IsFinishedGame b) eqn:Hf; simpl; [left; auto|].
  destruct (IsMarked b cell) eqn:Hm; simpl.
  { apply IsMarked_true in Hm. left; auto. }
  assert (cell ∉ marked_cells_ b) by (rewrite <- IsMarked_true; congruence).
  unfold IsOpened. destruct (IsClosed b cell) eqn:Hc; simpl.
  2:{ left. split_and!; [done| |done]. right; right.
      rewrite <- IsClosed_true. congruence. }
  apply IsClosed_true in Hc. right.
  destruct (IsMine b cell) eqn:Hmine.
  { apply IsMine_true in Hmine. left. done. }
  assert (cell ∉ cells_with_mines_ b) by (rewrite <- IsMine_true; congruence).
  right. split_and!; try done.
  destruct (started_frame t_start b) as (Hw & Hh & Hmn & Hmk & Hcl & _).
  destruct (flood_terminates (size (closed_cells_ b)) [cell]
              (set_closed (closed_cells_ b ∖ {[cell]}) (started t_start b)))
    as [b' Hrun].
  { simpl. rewrite size_difference, size_singleton by set_solver.
    assert (size (closed_cells_ b) ≠ 0)%nat; [|lia].
    intros Hz%size_empty_inv. set_solver. }
  rewrite Hrun. destruct (flood_erases _ _ _ _ Hrun) as (X & -> & HX & Hers).
  exists X. split_and!; try done.
  intros c Hc' HcX. destruct (decide (c = cell)) as [->|Hne]; [done|].
  destruct (Hers c) as (Hb1 & Hm1 & Hmn1); [simpl; set_solver|done|].
  rewrite <- Hmn, <- Hmk. split_and!; [|done|done].
  rewrite <- Hb1. by apply IsCorrectBoundary_ext.
Qed.

(** [OpenCell] always ends: the fuel it gives the loop is enough. *)
Lemma OpenCell_terminates t_start t_finish cell b :
  OpenCell t_start t_finish cell b ≠ OutOfFuel.
Proof.
  destruct (OpenCell_cases t_start t_finish cell b)
    as [(_ & ->)|[(_ & _ & ->)|[(_ & _ & _ & _ & _ & ->)|
        (_ & _ & _ & _ & _ & X & _ & _ & _ & ->)]]]; done.
Qed.

(** The two ways a returning [MarkCell] call can go. *)
Lemma MarkCell_cases now cell b :
  (IsCorrectBoundary b cell = false ∧ MarkCell now cell b = Thrown out_of_boundary b)
  ∨ (IsCorrectBoundary b cell = true ∧ IsFinishedGame b = true
     ∧ MarkCell now cell b = Returned b)
  ∨ (IsCorrectBoundary b cell = true ∧ IsFinishedGame b = false
     ∧ ∃ M, MarkCell now cell b = Returned (set_marked M (started now b))
         ∧ (cell ∈ marked_cells_ b → M = marked_cells_ b ∖ {[cell]})
         ∧ (cell ∉ marked_cells_ b → M = {[cell]} ∪ marked_cells_ b)).
Proof.
  unfold MarkCell. fold (started now b).
  destruct (IsCorrectBoundary b cell) eqn:Hb; simpl; [right|by left].
  destruct (IsFinishedGame b) eqn:Hf; simpl; [left; auto|right].
  split_and!; try done.
  destruct (started_frame now b) as (_ & _ & _ & Hmk & _).
  unfold IsMarked. rewrite Hmk. case_bool_decide; eexists; split_and!; done.
Qed.

(** ** [NewGame], case by case *)

Lemma forallb_false (f : Cell → bool) (l : list Cell) :
  forallb f l = false → ∃ c, c ∈ l ∧ f c = false.
Proof.
  induction l as [|a l IH]; simpl; [done|].
  destruct (f a) eqn:E; simpl.
  - intros (c & ? & ?)%IH. exists c. split; [by right|done].
  - intros _. exists a. split; [by left|done].
Qed.

Lemma NewGame_count_cases (width height mines_count : N) b0 :
  let b := SetNewBoundary width height (ResetValues b0) in
  (size_t_mul height width < mines_count
   ∧ NewGame_count width height mines_count b0 = Thrown "Too many mines" b)
  ∨ (mines_count ≤ size_t_mul height width
     ∧ NewGame_count width height mines_count b0
       = Returned (FillClosed (FillMines mines_count b))).
Proof.
  unfold NewGame_count, FieldDefinition_count. simpl.
  destruct (N.ltb_spec (size_t_mul height width) mines_count); [left|right]; done.
Qed.

Lemma NewGame_list_cases (width height : N) (cells : list Cell) b0 :
  let b := SetNewBoundary width height (ResetValues b0) in
  (size_t_mul height width < N.of_nat (length cells)
   ∧ NewGame_list width height cells b0 = Thrown "Too many mines" b)
  ∨ (N.of_nat (length cells) ≤ size_t_mul height width
     ∧ (∃ c, c ∈ cells ∧ IsCorrectBoundary b c = false)
     ∧ NewGame_list width height cells b0 = Thrown "Incorrect mine position" b)
  ∨ (N.of_nat (length cells) ≤ size_t_mul height width
     ∧ (∀ c, c ∈ cells → IsCorrectBoundary b c = true)
     ∧ NewGame_list width height cells b0
       = Returned (FillClosed (set_mines (copy_into ∅ cells) (gen_ b0) b))).
Proof.
  unfold NewGame_list, FieldDefinition_list. simpl.
  destruct (N.ltb_spec (size_t_mul height width) (N.of_nat (length cells)));
    [by left|right].
  destruct (forallb _ cells) eqn:E; [right|left].
  - split_and!; [done| |done]. intros c Hc.
    rewrite forallb_forall in E. by apply E, list_elem_of_In.
  - split_and!; [done| |done]. by apply forallb_false.
Qed.

Lemma NewGame_count_fresh (width height mines_count : N) b0 b :
  NewGame_count width height mines_count b0 = Returned b →
  fresh width height b ∧ gen_ b = gen_ (FillMines mines_count
                                          (SetNewBoundary width height (ResetValues b0)))
  ∧ N.of_nat (size (cells_with_mines_ b)) ≤ mines_count
  ∧ mines_count ≤ size_t_mul height width.
Proof.
  destruct (NewGame_count_cases width height mines_count b0)
    as [(_ & ->)|(Hle & ->)]; [done|].
  intros [= <-].
  set (b1 := SetNewBoundary width height (ResetValues b0)).
  destruct (FillMines_frame mines_count b1) as (Hw & Hh & Hs & Hmk & Hcl & Ht & Hf).
  assert (Hclosed : ∀ c, c ∈ closed_cells_ (FillClosed (FillMines mines_count b1))
                     ↔ IsCorrectBoundary (FillClosed (FillMines mines_count b1)) c = true).
  { intros c. rewrite elem_of_closed_FillClosed, Hcl. simpl.
    rewrite (IsCorrectBoundary_ext (FillMines mines_count b1)
               (FillClosed (FillMines mines_count b1))) by done.
    set_solver. }
  split_and!; [split_and!|done| |done]; simpl; try done.
  - intros c Hc. apply Hclosed.
    apply elem_of_mines_FillMines in Hc as [Hc|Hc]; [set_solver|].
    rewrite <- Hc. by apply IsCorrectBoundary_ext.
  - by apply size_mines_FillMines.
Qed.

Lemma NewGame_list_fresh (width height : N) (cells : list Cell) b0 b :
  NewGame_list width height cells b0 = Returned b →
  fresh width height b ∧ gen_ b = gen_ b0
  ∧ cells_with_mines_ b = list_to_set cells
  ∧ N.of_nat (length cells) ≤ size_t_mul height width.
Proof.
  destruct (NewGame_list_cases width height cells b0)
    as [(_ & ->)|[(_ & _ & ->)|(Hle & Hin & ->)]]; [done|done|].
  intros [= <-].
  set (b1 := SetNewBoundary width height (ResetValues b0)) in *.
  assert (Hclosed : ∀ c, c ∈ closed_cells_
                       (FillClosed (set_mines (copy_into ∅ cells) (gen_ b0) b1))
                     ↔ IsCorrectBoundary b1 c = true).
  { intros c. rewrite elem_of_closed_FillClosed. simpl. set_solver. }
  split_and!; [split_and!|done| |done]; simpl; try done.
  - intros c Hc. apply Hclosed.
    apply elem_of_copy_into in Hc as [Hc|Hc]; [set_solver|by apply Hin].
  - rewrite copy_into_list_to_set. set_solver.
Qed.

(** The constructors build what [NewGame] builds on an object whose
    generator is in the same state, so the boards they return are
    reachable boards. *)
Lemma Minesweeper_count_NewGame (width height mines_count : N) b0 :
  Minesweeper_count width height mines_count (gen_ b0)
  = NewGame_count width height mines_count b0.
Proof. reflexivity. Qed.

Lemma Minesweeper_list_NewGame (width height : N) (cells : list Cell) b0 b :
  Minesweeper_list width height cells (gen_ b0) = Returned b ↔
  NewGame_list width height cells b0 = Returned b.
Proof.
  unfold Minesweeper_list, NewGame_list, FieldDefinition_list. simpl.
  destruct (_ <? _); [done|].
  change (forallb (IsCorrectBoundary (SetNewBoundary width height (ResetValues b0))) cells)
    with (forallb (IsCorrectBoundary
            (mkMinesweeper width height 0%Z 0%Z NOT_STARTED (list_to_set cells) ∅ ∅
               (gen_ b0))) cells).
  destruct (forallb _ cells); [|done].
  assert (copy_into (list_to_set cells) cells = copy_into ∅ cells) as Hcopy.
  { rewrite !copy_into_list_to_set. set_solver. }
  unfold set_mines, FillClosed. simpl. by rewrite Hcopy.
Qed.

(** ** The invariant of reachable boards *)

Lemma fresh_board_inv (width height : N) b :
  is_size_t width → is_size_t height → fresh width height b → board_inv b.
Proof.
  intros Hw Hh (<- & <- & Hs & _ & _ & _ & Hcl & Hm).
  split_and!; try done.
  - intros c. apply Hcl.
  - rewrite Hs. done.
  - intros _ _ _ c. apply Hcl.
Qed.

Lemma MarkCell_board_inv now cell b b' :
  board_inv b → MarkCell now cell b = Returned b' → board_inv b'.
Proof.
  intros Hinv.
  destruct (MarkCell_cases now cell b)
    as [(_ & ->)|[(_ & _ & ->)|(_ & Hf & M & -> & _)]]; [done|by intros [= <-]|].
  intros [= <-].
  destruct Hinv as (Hw & Hh & Hm & Hcl & Hv & Hrun).
  destruct (started_frame now b) as (Hw' & Hh' & Hmn & Hmk & Hcl' & _).
  pose proof (started_status now b Hf) as Hs.
  assert (Hbd : ∀ c, IsCorrectBoundary (set_marked M (started now b)) c
                    = IsCorrectBoundary b c).
  { intros c. by apply IsCorrectBoundary_ext. }
  unfold board_inv. setoid_rewrite Hbd. simpl. rewrite Hw', Hh', Hmn, Hcl', Hs.
  split_and!; try done.
  intros _ _ Hsz c Hc. apply IsFinishedGame_false in Hf.
  apply Hrun; [destruct Hf; congruence|destruct Hf; congruence|done|done].
Qed.

Lemma OpenCell_board_inv t_start t_finish cell b b' :
  board_inv b → OpenCell t_start t_finish cell b = Returned b' → board_inv b'.
Proof.
  intros Hinv.
  destruct (OpenCell_cases t_start t_finish cell b)
    as [(_ & ->)|[(_ & _ & ->)|[(_ & Hf & _ & _ & _ & ->)|
        (Hin & Hf & _ & Hcell & Hnm & X & HX & Hers & _ & ->)]]];
    [done|by intros [= <-]| |]; intros [= <-];
    destruct Hinv as (Hw & Hh & Hm & Hcl & Hv & Hrun);
    destruct (started_frame t_start b) as (Hw' & Hh' & Hmn & Hmk & Hcl' & _).
  - assert (Hbd : ∀ c, IsCorrectBoundary (Defeat t_finish (started t_start b)) c
                      = IsCorrectBoundary b c).
    { intros c. by apply IsCorrectBoundary_ext. }
    unfold board_inv. setoid_rewrite Hbd. simpl. rewrite Hw', Hh', Hmn, Hcl'.
    split_and!; done.
  - assert (HmX : cells_with_mines_ b ⊆ X).
    { intros c Hc. destruct (decide (c ∈ X)) as [|Hn]; [done|].
      destruct (Hers c) as (_ & _ & ?); [by apply Hm|done|done]. }
    assert (HclX : ∀ c, c ∈ X → IsCorrectBoundary b c = true).
    { intros c Hc. apply Hcl. set_solver. }
    assert (Hbd : ∀ c, IsCorrectBoundary
                         (VictoryCheck t_finish (set_closed X (started t_start b))) c
                       = IsCorrectBoundary b c).
    { intros c. apply IsCorrectBoundary_ext; unfold VictoryCheck;
        by case_bool_decide. }
    unfold board_inv. setoid_rewrite Hbd. unfold VictoryCheck. simpl. rewrite Hmn.
    case_bool_decide as Hsz; simpl; rewrite ?Hw', ?Hh', ?Hmn.
    + rewrite (started_status t_start b Hf). split_and!; done.
    + split_and!; try done. intros _. split; [done|].
      exists cell. split; [done|set_solver].
Qed.

Lemma reachable_board_inv b : reachable b → board_inv b.
Proof.
  induction 1 as [b0 w h m b Hw Hh Hnew|b0 w h cells b Hw Hh Hnew
                 |b ts tf cell b' _ IH Hop|b now cell b' _ IH Hmk].
  - apply NewGame_count_fresh in Hnew as (Hfresh & _).
    by apply (fresh_board_inv w h).
  - apply NewGame_list_fresh in Hnew as (Hfresh & _).
    by apply (fresh_board_inv w h).
  - by eapply OpenCell_board_inv.
  - by eapply MarkCell_board_inv.
Qed.

(** ** Neighbours on the grid *)

Lemma elem_of_offsets (i : Z) : i ∈ offsets ↔ (i = -1 ∨ i = 0 ∨ i = 1)%Z.
Proof. unfold offsets. rewrite !elem_of_cons, elem_of_nil. tauto. Qed.

Lemma elem_of_neighbors c d :
  d ∈ neighbors c ↔ ∃ i j, i ∈ offsets ∧ j ∈ offsets ∧ d = neighbor_cell c i j.
Proof.
  unfold neighbors. rewrite list_elem_of_In, in_flat_map. split.
  - intros (i & Hi & Hd). apply in_map_iff in Hd as (j & <- & Hj).
    exists i, j. by rewrite !list_elem_of_In.
  - intros (i & j & Hi & Hj & ->). exists i. rewrite <- list_elem_of_In.
    split; [done|]. apply in_map_iff. exists j. by rewrite <- list_elem_of_In.
Qed.

(** Below a [size_t] bound the coordinate [a + i] is the integer [a + i]
    when it is below the bound as well: at [a = 0] the wrapped [a - 1] is
    [SIZE_MAX], which no bound exceeds. *)
Lemma size_t_add_int_in_bound (a w : N) (i : Z) :
  is_size_t w → a < w → i ∈ offsets → size_t_add_int a i < w →
  Z.of_N (size_t_add_int a i) = (Z.of_N a + i)%Z.
Proof.
  intros Hw Ha Hi. apply elem_of_offsets in Hi as [->|[->| ->]].
  - destruct (decide (a = 0)) as [->|Hne].
    + rewrite size_t_add_int_m1_0. unfold is_size_t, size_t_modulus in Hw. lia.
    + rewrite size_t_add_int_m1_pos; unfold is_size_t in *; lia.
  - rewrite size_t_add_int_0; unfold is_size_t in *; lia.
  - rewrite size_t_add_int_1; unfold is_size_t in *; lia.
Qed.

Lemma size_t_add_int_reaches (a a' w : N) :
  is_size_t w → a < w → a' < w →
  (Z.abs (Z.of_N a' - Z.of_N a) ≤ 1)%Z →
  ∃ i, i ∈ offsets ∧ a' = size_t_add_int a i.
Proof.
  intros Hw Ha Ha' Habs. exists (Z.of_N a' - Z.of_N a)%Z.
  unfold is_size_t in Hw.
  assert (a' = a - 1 ∧ 0 < a ∨ a' = a ∨ a' = a + 1) as [[-> Hpos]|[->| ->]] by lia.
  - replace (Z.of_N (a - 1) - Z.of_N a)%Z with (-1)%Z by lia.
    rewrite elem_of_offsets, size_t_add_int_m1_pos; unfold is_size_t; [auto|lia|lia].
  - replace (Z.of_N a - Z.of_N a)%Z with 0%Z by lia.
    rewrite elem_of_offsets, size_t_add_int_0; unfold is_size_t; [auto|lia].
  - replace (Z.of_N (a + 1) - Z.of_N a)%Z with 1%Z by lia.
    rewrite elem_of_offsets, size_t_add_int_1; unfold is_size_t; [auto|lia].
Qed.

(** The in-bounds cells the loops visit around an in-bounds cell are the
    cell itself and its adjacent in-bounds cells. *)
Lemma in_bounds_neighbors b c d :
  is_size_t (width_ b) → is_size_t (height_ b) →
  IsCorrectBoundary b c = true → IsCorrectBoundary b d = true →
  d ∈ neighbors c ↔ d = c ∨ adjacent c d = true.
Proof.
  intros Hw Hh [Hcx Hcy]%IsCorrectBoundary_true [Hdx Hdy]%IsCorrectBoundary_true.
  assert (Hadj : adjacent c d = true ↔
            d ≠ c ∧ (Z.abs (Z.of_N (x d) - Z.of_N (x c)) ≤ 1)%Z
                  ∧ (Z.abs (Z.of_N (y d) - Z.of_N (y c)) ≤ 1)%Z).
  { unfold adjacent. rewrite !andb_true_iff, bool_decide_eq_true, !Z.leb_le. tauto. }
  rewrite elem_of_neighbors, Hadj. split.
  - intros (i & j & Hi & Hj & ->). simpl in *.
    pose proof (size_t_add_int_in_bound _ _ i Hw Hcx Hi Hdx) as Hx.
    pose proof (size_t_add_int_in_bound _ _ j Hh Hcy Hj Hdy) as Hy.
    apply elem_of_offsets in Hi, Hj.
    destruct (decide (neighbor_cell c i j = c)) as [|Hne]; [by left|right].
    split; [done|]. simpl. lia.
  - intros [->|(_ & Hx & Hy)].
    + exists 0%Z, 0%Z. rewrite elem_of_offsets. split_and!; [auto|auto|].
      unfold neighbor_cell. unfold is_size_t in *.
      rewrite !size_t_add_int_0 by (unfold is_size_t; lia). by destruct c.
    + destruct (size_t_add_int_reaches _ _ _ Hw Hcx Hdx Hx) as (i & Hi & Hxi).
      destruct (size_t_add_int_reaches _ _ _ Hh Hcy Hdy Hy) as (j & Hj & Hyj).
      exists i, j. split_and!; [done|done|].
      unfold neighbor_cell. rewrite <- Hxi, <- Hyj. by destruct d.
Qed.

Lemma NoDup_product (a1 a2 a3 b1 b2 b3 : N) :
  a1 ≠ a2 → a1 ≠ a3 → a2 ≠ a3 → b1 ≠ b2 → b1 ≠ b3 → b2 ≠ b3 →
  NoDup [mkCell a1 b1; mkCell a1 b2; mkCell a1 b3;
         mkCell a2 b1; mkCell a2 b2; mkCell a2 b3;
         mkCell a3 b1; mkCell a3 b2; mkCell a3 b3].
Proof.
  intros. repeat (apply NoDup_cons_2;
    [rewrite ?elem_of_cons, elem_of_nil;
     let Hx := fresh in intros Hx; decompose [or] Hx; (done || congruence)|]).
  apply NoDup_nil_2.
Qed.

Lemma size_t_add_int_distinct (a : N) :
  is_size_t (a + 1) →
  size_t_add_int a (-1) ≠ size_t_add_int a 0
  ∧ size_t_add_int a (-1) ≠ size_t_add_int a 1
  ∧ size_t_add_int a 0 ≠ size_t_add_int a 1.
Proof.
  intros Ha. assert (is_size_t a) by (unfold is_size_t in *; lia).
  rewrite size_t_add_int_0, size_t_add_int_1 by done.
  destruct (decide (a = 0)) as [->|Hne].
  - rewrite size_t_add_int_m1_0. lia.
  - rewrite size_t_add_int_m1_pos by (done || lia). lia.
Qed.

(** The nine cells visited around an in-bounds cell are pairwise distinct. *)
Lemma NoDup_neighbors b c :
  is_size_t (width_ b) → is_size_t (height_ b) →
  IsCorrectBoundary b c = true → NoDup (neighbors c).
Proof.
  intros Hw Hh [Hcx Hcy]%IsCorrectBoundary_true.
  destruct (size_t_add_int_distinct (x c)) as (? & ? & ?).
  { unfold is_size_t in *. lia. }
  destruct (size_t_add_int_distinct (y c)) as (? & ? & ?).
  { unfold is_size_t in *. lia. }
  by apply NoDup_product.
Qed.

(** For a cell that holds no mine, the count of [CalcMinesNear] is the
    neighbor mine count of the specification. *)
Lemma CalcMinesNear_neighbor_mine_count b c :
  is_size_t (width_ b) → is_size_t (height_ b) →
  IsCorrectBoundary b c = true → c ∉ cells_with_mines_ b →
  CalcMinesNear b c = N.of_nat (neighbor_mine_count b c).
Proof.
  intros Hw Hh Hb Hnm. rewrite CalcMinesNear_neighbors. f_equal.
  unfold neighbor_mine_count.
  set (L := filter _ (neighbors c)).
  assert (HL : NoDup L) by (by apply NoDup_filter, (NoDup_neighbors b)).
  rewrite <- (size_list_to_set (C := gset Cell) L HL). f_equal.
  apply set_eq. intros d.
  rewrite elem_of_list_to_set, elem_of_filter. unfold L.
  rewrite list_elem_of_filter, andb_true_iff, IsMine_true.
  rewrite andb_True, !Is_true_true.
  split.
  - intros [[Hd Hm] Hn]. apply (in_bounds_neighbors b) in Hn as [->|?]; done.
  - intros [[Hadj Hd] Hm]. split_and!; [done|done|].
    apply (in_bounds_neighbors b); auto.
Qed.

(** ** Rendering *)

Lemma to_string_digit (n : N) :
  1 ≤ n → n ≤ 9 → to_string n = String (digit_char (N.to_nat n)) EmptyString.
Proof.
  intros H1 H9.
  assert (n = 1 ∨ n = 2 ∨ n = 3 ∨ n = 4 ∨ n = 5 ∨ n = 6 ∨ n = 7 ∨ n = 8 ∨ n = 9)
    as Hn by lia.
  repeat (destruct Hn as [->|Hn]; [reflexivity|]). by subst.
Qed.

Lemma length_string_of_list_ascii (l : list ascii) :
  String.length (string_of_list_ascii l) = length l.
Proof. induction l as [|a l IH]; simpl; [done|by rewrite IH]. Qed.

Lemma get_string_of_list_ascii (l : list ascii) (n : nat) :
  String.get n (string_of_list_ascii l) = l !! n.
Proof.
  revert n. induction l as [|a l IH]; intros [|n]; simpl; done.
Qed.

Lemma append_string_of_list_ascii (l1 l2 : list ascii) :
  string_of_list_ascii l1 +:+ string_of_list_ascii l2
  = string_of_list_ascii (l1 ++ l2).
Proof. induction l1 as [|a l1 IH]; simpl; [done|]. by rewrite <- IH. Qed.

(** A row built by appending one-character strings is the string of
    those characters. *)
Lemma foldl_append_chars (f : N → string) (g : N → ascii) (cols : list N)
    (acc : list ascii) :
  (∀ col, col ∈ cols → f col = String (g col) EmptyString) →
  foldl (λ row col, row +:+ f col) (string_of_list_ascii acc) cols
  = string_of_list_ascii (acc ++ (g <$> cols)).
Proof.
  revert acc. induction cols as [|a l IH]; intros acc Hf; simpl.
  - by rewrite (right_id_L [] (++)).
  - rewrite (Hf a) by left.
    change (String (g a) EmptyString) with (string_of_list_ascii [g a]).
    rewrite append_string_of_list_ascii, IH.
    + by rewrite <- (assoc_L (++)).
    + intros col Hcol. apply Hf. by right.
Qed.

(** On a board that satisfies the invariant an in-bounds cell is rendered
    as the one character the specification gives it. *)
Lemma render_cell_char b c :
  board_inv b → IsCorrectBoundary b c = true →
  render_cell b c = String (cell_char b c) EmptyString.
Proof.
  intros (Hw & Hh & Hm & _) Hb.
  unfold render_cell, cell_char, IsMine, IsMarked, IsClosed.
  rewrite bool_decide_and.
  destruct (bool_decide (c ∈ cells_with_mines_ b) && bool_decide (status_ b = DEFEAT));
    [done|].
  destruct (bool_decide (c ∈ marked_cells_ b)); [done|].
  destruct (bool_decide (c ∈ closed_cells_ b)) eqn:Hcl; [done|].
  apply bool_decide_eq_false in Hcl.
  assert (Hnm : c ∉ cells_with_mines_ b) by (intros ?; by apply Hcl, Hm).
  rewrite (CalcMinesNear_neighbor_mine_count b c Hw Hh Hb Hnm).
  pose proof (CalcMinesNear_le_9 b c) as Hle.
  rewrite (CalcMinesNear_neighbor_mine_count b c Hw Hh Hb Hnm) in Hle.
  case_bool_decide as Hz.
  - rewrite Hz. done.
  - destruct (N.eqb_spec (N.of_nat (neighbor_mine_count b c)) 0) as [|_]; [lia|].
    rewrite to_string_digit by lia. by rewrite Nat2N.id.
Qed.

Lemma RenderField_row b (row : N) :
  board_inv b → row < height_ b →
  RenderField b !! N.to_nat row
  = Some (string_of_list_ascii ((λ col, cell_char b (mkCell col row)) <$> range (width_ b))).
Proof.
  intros Hinv Hrow. unfold RenderField.
  rewrite list_lookup_fmap, lookup_range by done. simpl. f_equal.
  apply (foldl_append_chars _ (λ col, cell_char b (mkCell col row)) _ []).
  intros col Hcol%elem_of_range. apply render_cell_char; [done|].
  by apply IsCorrectBoundary_true.
Qed.

(** ** The flood fill on a grid without mines *)

Lemma CalcMinesNear_no_mines b c : cells_with_mines_ b = ∅ → CalcMinesNear b c = 0.
Proof.
  intros Hm. rewrite CalcMinesNear_neighbors.
  assert (Hnone : ∀ l : list Cell,
            filter (λ n, IsCorrectBoundary b n && IsMine b n = true) l = []).
  { induction l as [|n l IH]; [done|]. rewrite filter_cons_False; [done|].
    unfold IsMine. rewrite Hm, bool_decide_eq_false_2 by set_solver.
    by rewrite andb_false_r. }
  by rewrite Hnone.
Qed.

(** Walking along one coordinate: a property that holds somewhere below
    [n] and is carried by both unit steps holds everywhere below [n]. *)
Lemma line_induction (P : N → Prop) (n a : N) :
  a < n → P a →
  (∀ k, k + 1 < n → P k → P (k + 1)) →
  (∀ k, k + 1 < n → P (k + 1) → P k) →
  ∀ k, k < n → P k.
Proof.
  intros Ha HPa Hup Hdown.
  assert (H0 : P 0).
  { revert Ha HPa. induction a as [|a IH] using N.peano_ind; [done|].
    intros Ha HPa. apply IH; [lia|]. apply Hdown; rewrite N.add_1_r; done. }
  intros k. induction k as [|k IH] using N.peano_ind; [done|].
  intros Hk. rewrite <- N.add_1_r in *. apply Hup; [done|]. apply IH. lia.
Qed.

(** The grid is connected: a set of cells that holds an in-bounds cell
    and, with every in-bounds cell, the in-bounds cells visited around it,
    holds every cell of the grid. *)
Lemma grid_connected b (O : Cell → Prop) c :
  is_size_t (width_ b) → is_size_t (height_ b) →
  (∀ d n, IsCorrectBoundary b d = true → O d →
     n ∈ neighbors d → IsCorrectBoundary b n = true → O n) →
  IsCorrectBoundary b c = true → O c →
  ∀ d, IsCorrectBoundary b d = true → O d.
Proof.
  intros Hw Hh Hstep Hc HOc.
  assert (Hadj : ∀ d n, IsCorrectBoundary b d = true → O d →
            IsCorrectBoundary b n = true →
            (Z.abs (Z.of_N (x n) - Z.of_N (x d)) ≤ 1)%Z →
            (Z.abs (Z.of_N (y n) - Z.of_N (y d)) ≤ 1)%Z → O n).
  { intros d n Hd HOd Hn Hx Hy. apply (Hstep d n); try done.
    apply (in_bounds_neighbors b); try done.
    destruct (decide (n = d)) as [|Hne]; [by left|right].
    unfold adjacent. rewrite !andb_true_iff, bool_decide_eq_true, !Z.leb_le. done. }
  apply IsCorrectBoundary_true in Hc as [Hcx Hcy].
  assert (Hrow : ∀ col, col < width_ b → O (mkCell col (y c))).
  { apply (line_induction _ _ (x c)); [done|by rewrite Cell_eta|..].
    - intros k Hk HOk. apply (Hadj (mkCell k (y c))); try done;
        rewrite ?IsCorrectBoundary_true; simpl; lia.
    - intros k Hk HOk. apply (Hadj (mkCell (k + 1) (y c))); try done;
        rewrite ?IsCorrectBoundary_true; simpl; lia. }
  intros d [Hdx Hdy]%IsCorrectBoundary_true.
  rewrite <- (Cell_eta d). revert Hdy. generalize (y d).
  apply (line_induction _ _ (y c)); [done|by apply Hrow|..].
  - intros k Hk HOk. apply (Hadj (mkCell (x d) k)); try done;
      rewrite ?IsCorrectBoundary_true; simpl; lia.
  - intros k Hk HOk. apply (Hadj (mkCell (x d) (k + 1))); try done;
      rewrite ?IsCorrectBoundary_true; simpl; lia.
Qed.

(** Without mines and flags, a flood fill that starts with every opened
    cell in its queue ends with a set of opened cells that is closed under
    the neighbour loops. *)
Lemma flood_no_mines (fuel : nat) q (X : gset Cell) b b' :
  cells_with_mines_ b = ∅ → marked_cells_ b = ∅ →
  (∀ c, IsCorrectBoundary b c = true → c ∉ X → c ∈ q) →
  flood fuel q (set_closed X b) = Some b' →
  ∃ X', b' = set_closed X' b ∧ X' ⊆ X
    ∧ ∀ d n, IsCorrectBoundary b d = true → d ∉ X' →
        n ∈ neighbors d → IsCorrectBoundary b n = true → n ∉ X'.
Proof.
  intros Hm Hmk Hq Hrun.
  eapply (flood_rule (λ q X', X' ⊆ X
            ∧ ∀ d, IsCorrectBoundary b d = true → d ∉ X' →
                d ∈ q ∨ ∀ n, n ∈ neighbors d → IsCorrectBoundary b n = true → n ∉ X'))
    in Hrun.
  - destruct Hrun as (X' & -> & Hsub & HP). exists X'. split_and!; [done|done|].
    intros d n Hd HdX Hn Hnb. destruct (HP d Hd HdX) as [[]%elem_of_nil|Hall].
    by apply Hall.
  - intros cur q0 X0 _ Hne. by rewrite CalcMinesNear_no_mines in Hne.
  - intros cur q0 X0 X' added [Hsub HP] _ Hsub' Hadd _ Hall.
    split; [set_solver|]. intros d Hd HdX'.
    destruct (decide (d ∈ X0)) as [HdX0|HdX0].
    { left. apply elem_of_app. right. by apply Hadd. }
    destruct (HP d Hd HdX0) as [[->|Hin]%elem_of_cons|Hnb].
    + right. intros n Hn Hnb. apply Hall; [done|done|]. rewrite Hmk. set_solver.
    + left. apply elem_of_app. by left.
    + right. intros n Hn Hnb' HnX'. by apply (Hnb n Hn Hnb'), Hsub'.
  - split; [done|]. intros d Hd HdX. left. by apply Hq.
Qed.

(** One [OpenCell] on an untouched board without mines opens the grid. *)
Lemma OpenCell_no_mines (width height : N) t_start t_finish c b :
  is_size_t width → is_size_t height →
  fresh width height b → cells_with_mines_ b = ∅ →
  IsCorrectBoundary b c = true →
  ∃ b', OpenCell t_start t_finish c b = Returned b'
    ∧ closed_cells_ b' = ∅ ∧ status_ b' = VICTORY.
Proof.
  intros Hw Hh (<- & <- & Hs & _ & _ & Hmk & Hcl & _) Hm Hb.
  destruct (started_frame t_start b) as (Hw' & Hh' & Hmn & Hmk' & Hcl' & _).
  assert (Hbd : ∀ d, IsCorrectBoundary (started t_start b) d = IsCorrectBoundary b d).
  { intros d. by apply IsCorrectBoundary_ext. }
  destruct (OpenCell_cases t_start t_finish c b)
    as [(? & _)|[(_ & [Hf|[?|Hn]] & _)|[(_ & _ & _ & _ & ? & _)|
        (_ & _ & _ & _ & _ & X & HX & _ & Hrun & ->)]]].
  - congruence.
  - apply IsFinishedGame_true in Hf. rewrite Hs in Hf. by destruct Hf.
  - set_solver.
  - exfalso. by apply Hn, Hcl.
  - set_solver.
  - apply flood_no_mines in Hrun as (X' & Heq & _ & Hclosed);
      [|by rewrite Hmn|by rewrite Hmk'|].
    2:{ intros d Hd Hopen. rewrite Hbd in Hd. apply Hcl in Hd.
        apply list_elem_of_singleton.
        destruct (decide (d = c)); [done|set_solver]. }
    apply (f_equal closed_cells_) in Heq. simpl in Heq. subst X'.
    assert (HX0 : X = ∅).
    { apply set_eq. intros d. split; [|set_solver]. intros Hd. exfalso.
      assert (Hdb : IsCorrectBoundary (started t_start b) d = true).
      { rewrite Hbd. apply Hcl. set_solver. }
      revert Hd.
      apply (grid_connected (started t_start b) (λ d, d ∉ X) c);
        rewrite ?Hw', ?Hh', ?Hbd; try done.
      - set_solver.
      - by rewrite <- Hbd. }
    eexists. split; [done|]. unfold VictoryCheck. simpl.
    rewrite Hmn, Hm, HX0, bool_decide_eq_false_2 by (intros Hneq; by apply Hneq).
    done.
Qed.

(** * The claims *)



(** C2: opening an in-bounds, unflagged, closed mine cell of a game that is
    NOT_STARTED or IN_PROGRESS sets the status to DEFEAT and the finish time
    to the clock reading, and changes neither the closed set nor the mine
    and flagged sets; on a board whose status is VICTORY or DEFEAT every
    [OpenCell] and [MarkCell] call on an in-bounds cell returns the very
    same board. *)
Theorem C2_defeat_is_terminal t_start t_finish now c b :
  IsCorrectBoundary b c = true →
  (status_ b = NOT_STARTED ∨ status_ b = IN_PROGRESS →
   c ∉ marked_cells_ b → c ∈ closed_cells_ b → c ∈ cells_with_mines_ b →
   ∃ b', OpenCell t_start t_finish c b = Returned b'
     ∧ status_ b' = DEFEAT ∧ finish_time_ b' = t_finish
     ∧ closed_cells_ b' = closed_cells_ b
     ∧ cells_with_mines_ b' = cells_with_mines_ b
     ∧ marked_cells_ b' = marked_cells_ b)
  ∧ (status_ b = VICTORY ∨ status_ b = DEFEAT →
     OpenCell t_start t_finish c b = Returned b ∧ MarkCell now c b = Returned b).
Proof.
  intros Hb. split.
  - intros Hs%IsFinishedGame_false Hmk Hcl Hmine.
    destruct (started_frame t_start b) as (_ & _ & Hmn & Hmk' & Hcl' & _).
    destruct (OpenCell_cases t_start t_finish c b)
      as [(Hout & _)|[(_ & [Hf|[?|?]] & _)|[(_ & _ & _ & _ & _ & ->)|
          (_ & _ & _ & _ & Hnm & _)]]]; try congruence; try done.
    eexists. split; [done|]. by simpl.
  - intros Hs%IsFinishedGame_true. unfold OpenCell, MarkCell.
    by rewrite Hb, Hs.
Qed.

(** C7: [OpenCell] on an in-bounds flagged cell returns the very same
    board; in particular, when [MarkCell] has just flagged a cell, opening
    it is a no-op and the cell stays flagged. No [OpenCell] call changes the
    flagged set or removes a flagged cell from the closed set. *)
Theorem C7_flagged_cells_stay_closed t_start t_finish c b :
  (IsCorrectBoundary b c = true → c ∈ marked_cells_ b →
   OpenCell t_start t_finish c b = Returned b)
  ∧ (∀ now, IsCorrectBoundary b c = true → IsFinishedGame b = false →
       c ∉ marked_cells_ b →
       ∃ b1, MarkCell now c b = Returned b1 ∧ c ∈ marked_cells_ b1
         ∧ (c ∈ closed_cells_ b ↔ c ∈ closed_cells_ b1)
         ∧ OpenCell t_start t_finish c b1 = Returned b1)
  ∧ (∀ b', OpenCell t_start t_finish c b = Returned b' →
       marked_cells_ b' = marked_cells_ b
       ∧ ∀ f, f ∈ marked_cells_ b → f ∈ closed_cells_ b → f ∈ closed_cells_ b').
Proof.
  assert (Hnoop : ∀ b0, IsCorrectBoundary b0 c = true → c ∈ marked_cells_ b0 →
            OpenCell t_start t_finish c b0 = Returned b0).
  { intros b0 Hb Hmk%IsMarked_true. unfold OpenCell. rewrite Hb, Hmk. simpl.
    by rewrite orb_true_r. }
  split_and!; [by apply Hnoop| |].
  - intros now Hb Hf Hmk.
    destruct (MarkCell_cases now c b)
      as [(? & _)|[(_ & ? & _)|(_ & _ & M & -> & _ & HM)]]; try congruence.
    rewrite (HM Hmk). eexists. split; [done|].
    destruct (started_frame now b) as (Hw & Hh & _ & _ & Hcl & _).
    split_and!.
    + simpl. set_solver.
    + simpl. by rewrite Hcl.
    + apply Hnoop; [|simpl; set_solver].
      rewrite <- Hb. by apply IsCorrectBoundary_ext.
  - intros b'.
    destruct (started_frame t_start b) as (_ & _ & _ & Hmk & Hcl & _).
    destruct (OpenCell_cases t_start t_finish c b)
      as [(_ & ->)|[(_ & _ & ->)|[(_ & _ & _ & _ & _ & ->)|
          (_ & _ & _ & _ & _ & X & HX & Hers & _ & ->)]]];
      [done|by intros [= <-]| |]; intros [= <-].
    + simpl. rewrite Hmk, Hcl. done.
    + assert (Hkeep : ∀ f, f ∈ marked_cells_ b → f ∈ closed_cells_ b → f ∈ X).
      { intros f Hf Hc. destruct (decide (f ∈ X)) as [|Hn]; [done|].
        by destruct (Hers f Hc Hn) as (_ & ? & _). }
      unfold VictoryCheck. case_bool_decide; simpl; rewrite Hmk; done.
Qed.

(** C9: on a game that is not finished, [MarkCell] on an in-bounds cell
    toggles the membership of that cell in the flagged set and of no other
    cell, so two calls in a row restore the flagged set. *)
Theorem C9_mark_twice now1 now2 c b :
  IsCorrectBoundary b c = true → IsFinishedGame b = false →
  ∃ b1 b2,
    MarkCell now1 c b = Returned b1
    ∧ (c ∈ marked_cells_ b1 ↔ c ∉ marked_cells_ b)
    ∧ (∀ d, d ≠ c → d ∈ marked_cells_ b1 ↔ d ∈ marked_cells_ b)
    ∧ MarkCell now2 c b1 = Returned b2
    ∧ marked_cells_ b2 = marked_cells_ b.
Proof.
  intros Hb Hf.
  destruct (MarkCell_cases now1 c b)
    as [(? & _)|[(_ & ? & _)|(_ & _ & M & HM1 & Hin & Hout)]]; try congruence.
  set (b1 := set_marked M (started now1 b)) in *.
  assert (Hb1 : IsCorrectBoundary b1 c = true).
  { rewrite <- Hb. apply IsCorrectBoundary_ext; apply (started_frame now1 b). }
  assert (Hf1 : IsFinishedGame b1 = false).
  { apply IsFinishedGame_false. right. apply (started_status now1 b Hf). }
  destruct (MarkCell_cases now2 c b1)
    as [(? & _)|[(_ & ? & _)|(_ & _ & M' & HM2 & Hin' & Hout')]]; try congruence.
  exists b1, (set_marked M' (started now2 b1)).
  destruct (started_frame now1 b) as (_ & _ & _ & Hmk & _).
  assert (Hmk1 : marked_cells_ b1 = M) by done.
  rewrite Hmk1 in *. clear Hmk1.
  destruct (decide (c ∈ marked_cells_ b)) as [Hc|Hc].
  - specialize (Hin Hc). subst M.
    assert (M' = {[c]} ∪ marked_cells_ b ∖ {[c]}) as -> by (apply Hout'; set_solver).
    split_and!; [done|set_solver|set_solver|done|].
    simpl. apply set_eq. intros d. destruct (decide (d = c)); set_solver.
  - specialize (Hout Hc). subst M.
    assert (M' = ({[c]} ∪ marked_cells_ b) ∖ {[c]}) as -> by (apply Hin'; set_solver).
    split_and!; [done|set_solver|set_solver|done|].
    simpl. set_solver.
Qed.

(** C3 (amended): when a [NewGame] call of either overload fails with
    ConfigError the board is left reset, not as it was: the sides are the
    new arguments, the status is NOT_STARTED, both timestamps are zero and
    the mine, flagged and closed sets are empty; only the generator keeps
    its state. *)
Theorem C3_failed_NewGame_resets (width height mines_count : N)
    (cells : list Cell) b :
  let cleared := mkMinesweeper width height 0%Z 0%Z NOT_STARTED ∅ ∅ ∅ (gen_ b) in
  (ConfigError (NewGame_count width height mines_count b) →
   ∃ what, NewGame_count width height mines_count b = Thrown what cleared)
  ∧ (ConfigError (NewGame_list width height cells b) →
     ∃ what, NewGame_list width height cells b = Thrown what cleared).
Proof.
  simpl. split.
  - destruct (NewGame_count_cases width height mines_count b)
      as [(_ & ->)|(_ & ->)]; [by eexists|]. by intros (? & [?|?]).
  - destruct (NewGame_list_cases width height cells b)
      as [(_ & ->)|[(_ & _ & ->)|(_ & _ & ->)]]; [by eexists|by eexists|].
    by intros (? & [?|?]).
Qed.


(** C8 (amended): [NewGame] with a mine count fails with ConfigError
    exactly when the count exceeds [height * width] as computed in
    [size_t], that is modulo [2^64]; [NewGame] with a mine list fails with
    ConfigError exactly when the size of the list exceeds that product or
    some listed cell is outside the grid, and otherwise the mine set is the
    set of the listed cells. After a successful set-up the number of mines
    is at most that product, which is at most [width * height] and equal
    to it whenever [width * height] fits in a [size_t]. *)
Theorem C8_NewGame_config_errors (width height : N) b :
  (∀ mines_count,
     let o := NewGame_count width height mines_count b in
     (ConfigError o ↔ size_t_mul height width < mines_count)
     ∧ (¬ ConfigError o →
        ∃ b', o = Returned b'
          ∧ N.of_nat (size (cells_with_mines_ b')) ≤ size_t_mul height width))
  ∧ (∀ cells,
       let o := NewGame_list width height cells b in
       (ConfigError o ↔
          size_t_mul height width < N.of_nat (length cells)
          ∨ ∃ c, c ∈ cells ∧ ¬ (x c < width ∧ y c < height))
       ∧ (¬ ConfigError o →
          ∃ b', o = Returned b'
            ∧ cells_with_mines_ b' = list_to_set cells
            ∧ N.of_nat (size (cells_with_mines_ b')) ≤ size_t_mul height width))
  ∧ size_t_mul height width ≤ width * height
  ∧ (is_size_t (width * height) → size_t_mul height width = width * height).
Proof.
  split_and!.
  - intros mines_count o. subst o.
    destruct (NewGame_count_cases width height mines_count b)
      as [(Hlt & Heq)|(Hle & Heq)].
    + rewrite Heq. split; [split; [done|]|].
      * intros _. eexists. by left.
      * intros []. eexists. by left.
    + assert (Hno : ¬ ConfigError (NewGame_count width height mines_count b)).
      { rewrite Heq. by intros (? & [?|?]). }
      split; [split; [done|lia]|]. intros _.
      destruct (NewGame_count_fresh width height mines_count b _ Heq)
        as (_ & _ & Hsz & _).
      rewrite Heq. eexists. split; [done|]. lia.
  - intros cells o. subst o.
    destruct (NewGame_list_cases width height cells b)
      as [(Hlt & Heq)|[(Hle & (c & Hc & Hout) & Heq)|(Hle & Hin & Heq)]].
    + rewrite Heq. split; [split; [by left|]|].
      * intros _. eexists. by left.
      * intros []. eexists. by left.
    + rewrite Heq. split; [split|].
      * intros _. right. exists c. split; [done|].
        by apply IsCorrectBoundary_false in Hout.
      * intros _. eexists. by right.
      * intros []. eexists. by right.
    + assert (Hno : ¬ ConfigError (NewGame_list width height cells b)).
      { rewrite Heq. by intros (? & [?|?]). }
      split; [split; [done|]|].
      * intros [?|(c & Hc & Hout)]; [lia|]. exfalso.
        apply Hin, IsCorrectBoundary_true in Hc. by apply Hout.
      * intros _.
        destruct (NewGame_list_fresh width height cells b _ Heq)
          as (_ & _ & Hmines & _).
        rewrite Heq. eexists. split_and!; [done|done|].
        rewrite Hmines. pose proof (size_list_to_set_le cells). lia.
  - rewrite (N.mul_comm width height). apply size_t_mul_le.
  - rewrite (N.mul_comm width height). apply size_t_mul_small.
Qed.

(** C4: for an in-bounds cell that holds no mine, the count of
    [CalcMinesNear], which the flood fill of [OpenCell] and [RenderField]
    both use, is the number of mine cells among the in-bounds cells
    adjacent to it, at most eight; cells outside the grid count for
    nothing, also at the edges [x = 0] and [y = 0]. *)
Theorem C4_neighbor_mine_count b c :
  is_size_t (width_ b) → is_size_t (height_ b) →
  IsCorrectBoundary b c = true → c ∉ cells_with_mines_ b →
  CalcMinesNear b c = N.of_nat (neighbor_mine_count b c)
  ∧ (neighbor_mine_count b c ≤ 8)%nat.
Proof.
  intros Hw Hh Hb Hnm.
  pose proof (CalcMinesNear_neighbor_mine_count b c Hw Hh Hb Hnm) as Heq.
  split; [done|].
  rewrite CalcMinesNear_neighbors in Heq. apply Nat2N.inj in Heq. rewrite <- Heq.
  assert (length (filter (λ n, IsCorrectBoundary b n && IsMine b n = true)
                    (neighbors c)) < length (neighbors c))%nat as Hlt.
  { apply (length_filter_lt _ _ c).
    - apply (in_bounds_neighbors b); auto.
    - rewrite andb_true_iff, IsMine_true. tauto. }
  change (length (neighbors c)) with 9%nat in Hlt. lia.
Qed.

(** C5: on a grid of positive width and height set up with zero mines, by
    count or by an empty list, the set-up succeeds and one [OpenCell] on
    any in-bounds cell empties the closed set and sets the status to
    VICTORY. *)
Theorem C5_zero_mines_one_click (width height : N) t_start t_finish c b0
    (o : Outcome G) :
  is_size_t width → is_size_t height → 0 < width → 0 < height →
  x c < width → y c < height →
  o = NewGame_count width height 0 b0 ∨ o = NewGame_list width height [] b0 →
  ∃ b b', o = Returned b
    ∧ cells_with_mines_ b = ∅
    ∧ (∀ d, d ∈ closed_cells_ b ↔ x d < width ∧ y d < height)
    ∧ OpenCell t_start t_finish c b = Returned b'
    ∧ closed_cells_ b' = ∅ ∧ status_ b' = VICTORY.
Proof.
  intros Hw Hh _ _ Hx Hy Ho.
  assert (∃ b, o = Returned b ∧ fresh width height b ∧ cells_with_mines_ b = ∅)
    as (b & -> & Hfresh & Hm).
  { destruct Ho as [-> | ->].
    - destruct (NewGame_count_cases width height 0 b0) as [(? & _)|(_ & Heq)]; [lia|].
      eexists. split; [exact Heq|].
      destruct (NewGame_count_fresh _ _ _ _ _ Heq) as (Hf & _ & Hsz & _).
      split; [done|]. apply leibniz_equiv, size_empty_inv. lia.
    - destruct (NewGame_list_cases width height [] b0)
        as [(? & _)|[(_ & (d & []%elem_of_nil & _) & _)|(_ & _ & Heq)]];
        [simpl in *; lia|].
      eexists. split; [exact Heq|].
      by destruct (NewGame_list_fresh _ _ _ _ _ Heq) as (Hf & _ & -> & _). }
  assert (Hb : IsCorrectBoundary b c = true).
  { destruct Hfresh as (Hwb & Hhb & _). apply IsCorrectBoundary_true.
    by rewrite Hwb, Hhb. }
  destruct (OpenCell_no_mines width height t_start t_finish c b Hw Hh Hfresh Hm Hb)
    as (b' & Hopen & Hcl & Hs).
  exists b, b'. split_and!; try done.
  destruct Hfresh as (Hwb & Hhb & _ & _ & _ & _ & Hclosed & _).
  intros d. by rewrite Hclosed, IsCorrectBoundary_true, Hwb, Hhb.
Qed.

(** C6: on a reachable board [RenderField] returns [height_] strings; the
    string at index [row] has [width_] characters and its character at
    column [col] is ['*'] for a mine on a DEFEAT board, otherwise ['?'] for
    a flagged cell, otherwise ['-'] for a closed cell, otherwise the decimal
    digit of the neighbor mine count or ['.'] when that count is zero. A
    flagged mine on a DEFEAT board is rendered ['*']. *)
Theorem C6_RenderField_characters b :
  reachable b →
  length (RenderField b) = N.to_nat (height_ b)
  ∧ (∀ row, row < height_ b →
       ∃ line, RenderField b !! N.to_nat row = Some line
         ∧ String.length line = N.to_nat (width_ b)
         ∧ ∀ col, col < width_ b →
             String.get (N.to_nat col) line = Some (cell_char b (mkCell col row)))
  ∧ (∀ c, c ∈ cells_with_mines_ b → c ∈ marked_cells_ b → status_ b = DEFEAT →
       cell_char b c = "*"%char).
Proof.
  intros Hinv%reachable_board_inv. split_and!.
  - unfold RenderField. by rewrite length_fmap, length_range.
  - intros row Hrow. eexists. split; [by apply RenderField_row|].
    rewrite length_string_of_list_ascii, length_fmap, length_range.
    split; [done|]. intros col Hcol.
    by rewrite get_string_of_list_ascii, list_lookup_fmap, lookup_range.
  - intros c Hm _ Hs. unfold cell_char. by rewrite bool_decide_eq_true_2.
Qed.

(** * Further properties of the engine *)

(** ** Cells as keys *)

(** X1: [operator==] holds exactly of cells with the same coordinates, so
    equal cells have equal hashes; and [CellHash] separates any two cells
    with [y < 1000000] and [x * 1000000 + y] below [2^64]. *)
Theorem X1_Cell_equality_and_hash (c d : Cell) :
  (Cell_eqb c d = true ↔ c = d)
  ∧ (Cell_eqb c d = true → CellHash c = CellHash d)
  ∧ (y c < 1000000 → y d < 1000000 →
     is_size_t (x c * 1000000 + y c) → is_size_t (x d * 1000000 + y d) →
     CellHash c = CellHash d → c = d).
Proof.
  assert (Heq : Cell_eqb c d = true ↔ c = d).
  { unfold Cell_eqb. rewrite andb_true_iff, !N.eqb_eq. split.
    - intros [Hx Hy]. destruct c, d. simpl in *. congruence.
    - by intros ->. }
  split_and!; [done|by intros ->%Heq|].
  unfold CellHash, is_size_t. cbv zeta. intros Hyc Hyd Hc Hd.
  rewrite (N.mod_small (x c * _)), (N.mod_small (x d * _)) by lia.
  rewrite !N.mod_small by done. intros Hh.
  assert (x c = x d ∧ y c = y d) as [Hx Hy] by lia.
  destruct c, d. simpl in *. congruence.
Qed.

(** ** Bounds errors and termination *)


Lemma flood_more_fuel (fuel fuel' : nat) q b b' :
  flood fuel q b = Some b' → (fuel ≤ fuel')%nat → flood fuel' q b = Some b'.
Proof.
  revert fuel' q b. induction fuel as [|fuel IH]; intros fuel' q b.
  - destruct q; [|done]. intros [= <-] _. by destruct fuel'.
  - destruct q as [|cur q]; [intros [= <-] _; by destruct fuel'|].
    intros Hrun Hle. destruct fuel' as [|fuel']; [lia|]. simpl in *.
    apply IH; [done|lia].
Qed.

(** X3: the flood-fill loop always ends: with as many unrollings as there
    are closed cells plus queued cells it reaches the empty queue, more
    unrollings give the same board, and [OpenCell] never runs out of them. *)
Theorem X3_flood_terminates t_start t_finish c q b :
  OpenCell t_start t_finish c b ≠ OutOfFuel
  ∧ ∃ b', ∀ fuel, (length q + size (closed_cells_ b) ≤ fuel)%nat →
      flood fuel q b = Some b'.
Proof.
  split.
  - destruct (OpenCell_cases t_start t_finish c b)
      as [(_ & ->)|[(_ & _ & ->)|[(_ & _ & _ & _ & _ & ->)|
          (_ & _ & _ & _ & _ & X & _ & _ & _ & ->)]]]; done.
  - destruct (flood_terminates (length q + size (closed_cells_ b)) q b)
      as [b' Hrun]; [done|].
    exists b'. intros fuel Hle. by apply (flood_more_fuel _ _ _ _ _ Hrun).
Qed.

(** ** Set-up *)

Lemma NoDup_range (n : N) : NoDup (range n).
Proof.
  unfold range. apply NoDup_fmap_2_strong; [|apply NoDup_seq].
  intros i j _ _ Hij. lia.
Qed.

Lemma fill_col_app (v : list Cell) (col : N) (rows : list N) :
  foldl (λ v row, v ++ [mkCell col row]) v rows = v ++ (mkCell col <$> rows).
Proof.
  revert v. induction rows as [|a l IH]; intros v; simpl.
  - by rewrite (right_id_L [] (++)).
  - by rewrite IH, <- (assoc_L (++)).
Qed.

Lemma fill_cols_app (v : list Cell) (h : N) (cols : list N) :
  foldl (λ v col, foldl (λ v row, v ++ [mkCell col row]) v (range h)) v cols
  = v ++ (cols ≫= λ col, mkCell col <$> range h).
Proof.
  revert v. induction cols as [|a l IH]; intros v; csimpl.
  - by rewrite (right_id_L [] (++)).
  - by rewrite IH, fill_col_app, <- (assoc_L (++)).
Qed.

Lemma NoDup_possible_mine b : NoDup (possible_mine b).
Proof.
  unfold possible_mine. rewrite fill_cols_app. simpl.
  apply NoDup_bind; [| |apply NoDup_range].
  - intros c1 c2 d _ _ (? & -> & _)%list_elem_of_fmap (? & [= -> _] & _)%list_elem_of_fmap.
    done.
  - intros col _. apply NoDup_fmap_2_strong; [|apply NoDup_range].
    by intros ? ? _ _ [= ->].
Qed.

Lemma length_possible_mine b :
  length (possible_mine b) = (N.to_nat (width_ b) * N.to_nat (height_ b))%nat.
Proof.
  unfold possible_mine. rewrite fill_cols_app. simpl.
  rewrite <- (length_range (width_ b)).
  induction (range (width_ b)) as [|a l IH]; csimpl; [done|].
  by rewrite length_app, length_fmap, length_range, IH.
Qed.

(** X4: when [width * height] fits in a [size_t] and the count is at most
    that product (and representable as [int64_t]), [NewGame] with a mine
    count returns a board with exactly that many mines, all of them cells
    of the grid. *)
Theorem X4_NewGame_count_places_mines (width height mines_count : N) b0 :
  is_size_t (width * height) → mines_count ≤ width * height →
  mines_count < 9223372036854775808 →
  ∃ b, NewGame_count width height mines_count b0 = Returned b
    ∧ size (cells_with_mines_ b) = N.to_nat mines_count
    ∧ ∀ c, c ∈ cells_with_mines_ b → x c < width ∧ y c < height.
Proof.
  intros Hfit Hle H63.
  destruct (NewGame_count_cases width height mines_count b0) as [(Hlt & _)|(_ & Heq)].
  { rewrite size_t_mul_small in Hlt by (by rewrite N.mul_comm). lia. }
  eexists. split; [exact Heq|].
  set (b1 := SetNewBoundary width height (ResetValues b0)).
  split.
  - unfold FillClosed, FillMines. destruct (N.eqb_spec mines_count 0) as [->|Hpos].
    { change (size (∅ : gset Cell) = 0%nat). apply size_empty. }
    simpl. rewrite copy_into_list_to_set, (right_id_L ∅ (∪)).
    assert (Hk : Z.to_nat (static_cast_int64 mines_count) = N.to_nat mines_count).
    { unfold static_cast_int64. destruct (N.ltb_spec mines_count 9223372036854775808); lia. }
    rewrite Hk.
    pose proof (shuffle_Permutation (possible_mine b1) (gen_ b0)) as Hperm.
    rewrite size_list_to_set.
    + rewrite length_take_le; [done|].
      rewrite Hperm, length_possible_mine. simpl. lia.
    + eapply sublist_NoDup; [|apply sublist_take].
      rewrite Hperm. apply NoDup_possible_mine.
  - intros c Hc. simpl in Hc.
    apply elem_of_mines_FillMines in Hc as [Hc|Hc]; [set_solver|].
    by apply IsCorrectBoundary_true in Hc.
Qed.

(** X5: after a successful [NewGame] of either overload the closed set is
    the whole grid: a cell is closed exactly when it lies inside, and there
    are [width * height] closed cells. *)
Theorem X5_NewGame_closes_the_grid (width height mines_count : N)
    (cells : list Cell) b0 b :
  NewGame_count width height mines_count b0 = Returned b
  ∨ NewGame_list width height cells b0 = Returned b →
  (∀ c, c ∈ closed_cells_ b ↔ x c < width ∧ y c < height)
  ∧ size (closed_cells_ b) = (N.to_nat width * N.to_nat height)%nat.
Proof.
  intros Hnew.
  assert (Hfresh : fresh width height b).
  { destruct Hnew as [Hnew|Hnew]; [by apply NewGame_count_fresh in Hnew as (? & _)|
                                   by apply NewGame_list_fresh in Hnew as (? & _)]. }
  destruct Hfresh as (Hw & Hh & _ & _ & _ & _ & Hcl & _).
  assert (Hgrid : ∀ c, c ∈ closed_cells_ b ↔ x c < width ∧ y c < height).
  { intros c. by rewrite Hcl, IsCorrectBoundary_true, Hw, Hh. }
  split; [done|].
  assert (closed_cells_ b = list_to_set (possible_mine b)) as ->.
  { apply set_eq. intros c.
    by rewrite elem_of_list_to_set, elem_of_possible_mine, Hcl. }
  rewrite size_list_to_set by apply NoDup_possible_mine.
  by rewrite length_possible_mine, Hw, Hh.
Qed.

(** X6: a successful [NewGame] starts from scratch whatever the board was:
    the sides are the arguments, the status is NOT_STARTED, both
    timestamps are zero and no cell is flagged; the overload with a mine
    list, and the one with a zero count, leave the generator as it was. *)
Theorem X6_NewGame_resets (width height mines_count : N) (cells : list Cell) b0 b :
  (NewGame_count width height mines_count b0 = Returned b
   ∨ NewGame_list width height cells b0 = Returned b →
   width_ b = width ∧ height_ b = height ∧ status_ b = NOT_STARTED
   ∧ start_time_ b = 0%Z ∧ finish_time_ b = 0%Z ∧ marked_cells_ b = ∅
   ∧ ∀ now, GetGameTime now b = 0%Z)
  ∧ (NewGame_list width height cells b0 = Returned b → gen_ b = gen_ b0)
  ∧ (NewGame_count width height 0 b0 = Returned b → gen_ b = gen_ b0).
Proof.
  split_and!.
  - intros Hnew.
    assert (Hfresh : fresh width height b).
    { destruct Hnew as [Hnew|Hnew]; [by apply NewGame_count_fresh in Hnew as (? & _)|
                                     by apply NewGame_list_fresh in Hnew as (? & _)]. }
    destruct Hfresh as (Hw & Hh & Hs & Hst & Hft & Hmk & _).
    split_and!; try done. intros now. unfold GetGameTime. by rewrite Hs.
  - by intros (_ & ? & _)%NewGame_list_fresh.
  - by intros (_ & -> & _)%NewGame_count_fresh.
Qed.

(** ** The status machine and the clock *)

Lemma status_started now b :
  status_ (started now b) = if bool_decide (status_ b = NOT_STARTED)
                            then IN_PROGRESS else status_ b.
Proof. unfold started. by case_bool_decide. Qed.

Lemma start_time_started now b :
  start_time_ (started now b) = if bool_decide (status_ b = NOT_STARTED)
                                then now else start_time_ b.
Proof. unfold started. by case_bool_decide. Qed.

(** One returning call of [OpenCell] or [MarkCell], with the clock
    readings it is given. *)
Lemma call_cases t_start t_finish c b b' :
  OpenCell t_start t_finish c b = Returned b'
  ∨ MarkCell t_start c b = Returned b' →
  b' = b
  ∨ (IsFinishedGame b = false
     ∧ (b' = Defeat t_finish (started t_start b)
        ∨ (∃ X, b' = VictoryCheck t_finish (set_closed X (started t_start b)))
        ∨ (∃ M, b' = set_marked M (started t_start b)))).
Proof.
  intros [Hcall|Hcall].
  - destruct (OpenCell_cases t_start t_finish c b)
      as [(_ & Heq)|[(_ & _ & Heq)|[(_ & Hf & _ & _ & _ & Heq)|
          (_ & Hf & _ & _ & _ & X & _ & _ & _ & Heq)]]];
      rewrite Heq in Hcall.
    + discriminate Hcall.
    + injection Hcall as <-. by left.
    + injection Hcall as <-. right. split; [exact Hf|]. by left.
    + injection Hcall as <-. right. split; [exact Hf|]. right; left. by exists X.
  - destruct (MarkCell_cases t_start c b)
      as [(_ & Heq)|[(_ & _ & Heq)|(_ & Hf & M & Heq & _)]];
      rewrite Heq in Hcall.
    + discriminate Hcall.
    + injection Hcall as <-. by left.
    + injection Hcall as <-. right. split; [exact Hf|]. right; right. by exists M.
Qed.

(** X7: the status only moves forward. A returning [OpenCell] or
    [MarkCell] never lowers the rank of the status (NOT_STARTED, then
    IN_PROGRESS, then VICTORY or DEFEAT); on a decided game it returns the
    very same board; it leaves the status NOT_STARTED only if it changed
    nothing; and [MarkCell] on a game not yet decided leaves it
    IN_PROGRESS: flagging never ends a game. *)
Theorem X7_status_moves_forward t_start t_finish c b b' :
  OpenCell t_start t_finish c b = Returned b'
  ∨ MarkCell t_start c b = Returned b' →
  (status_rank (status_ b) ≤ status_rank (status_ b'))%nat
  ∧ (IsFinishedGame b = true → b' = b)
  ∧ (status_ b' = NOT_STARTED → b' = b)
  ∧ (MarkCell t_start c b = Returned b' → IsFinishedGame b = false →
     status_ b' = IN_PROGRESS).
Proof.
  intros Hcall. split_and!.
  - destruct (call_cases _ _ _ _ _ Hcall)
      as [->|(Hf & [->|[(X & ->)|(M & ->)]])]; [done|..];
      apply IsFinishedGame_false in Hf;
      unfold VictoryCheck; try case_bool_decide; simpl;
      rewrite ?status_started; destruct Hf as [Hs|Hs]; rewrite ?Hs; simpl; lia.
  - intros Hf. destruct (call_cases _ _ _ _ _ Hcall) as [->|(Hf' & _)]; congruence.
  - intros Hs. destruct (call_cases _ _ _ _ _ Hcall)
      as [->|(Hf & [->|[(X & ->)|(M & ->)]])]; [done|..]; exfalso;
      apply IsFinishedGame_false in Hf; revert Hs;
      unfold VictoryCheck; try case_bool_decide; simpl;
      rewrite ?status_started; destruct Hf as [Hs'|Hs']; rewrite ?Hs'; simpl; done.
  - intros Hmk Hf.
    destruct (MarkCell_cases t_start c b)
      as [(_ & Heq)|[(_ & ? & _)|(_ & _ & M & Heq & _)]];
      [congruence|congruence|].
    rewrite Heq in Hmk. injection Hmk as <-. simpl. by apply started_status.
Qed.

Lemma call_timestamps t_start t_finish c b b' :
  OpenCell t_start t_finish c b = Returned b'
  ∨ MarkCell t_start c b = Returned b' →
  (status_ b ≠ NOT_STARTED → start_time_ b' = start_time_ b)
  ∧ (status_ b = NOT_STARTED → status_ b' ≠ NOT_STARTED → start_time_ b' = t_start)
  ∧ (IsFinishedGame b' = IsFinishedGame b → finish_time_ b' = finish_time_ b)
  ∧ (IsFinishedGame b = false → IsFinishedGame b' = true →
     finish_time_ b' = t_finish).
Proof.
  intros Hcall.
  destruct (call_cases _ _ _ _ _ Hcall) as [->|(Hf & Hb')].
  { split_and!; try done; congruence. }
  apply IsFinishedGame_false in Hf as Hs.
  destruct Hb' as [->|[(X & ->)|(M & ->)]];
    unfold VictoryCheck; try case_bool_decide;
    unfold IsFinishedGame, started; simpl;
    destruct Hs as [Hs|Hs]; rewrite !Hs; simpl; rewrite ?Hs; simpl;
    split_and!; intros; try done; try congruence.
Qed.

(** X8: the timestamps are written once. A returning [OpenCell] or
    [MarkCell] keeps the start time of a started game and gives a game it
    starts the reading of the clock; it keeps the finish time unless it
    decides the game, and then the finish time is the reading of the clock. *)
Theorem X8_timestamps_written_once t_start t_finish c b b' :
  OpenCell t_start t_finish c b = Returned b'
  ∨ MarkCell t_start c b = Returned b' →
  (status_ b ≠ NOT_STARTED → start_time_ b' = start_time_ b)
  ∧ (status_ b = NOT_STARTED → status_ b' ≠ NOT_STARTED → start_time_ b' = t_start)
  ∧ (IsFinishedGame b' = IsFinishedGame b → finish_time_ b' = finish_time_ b)
  ∧ (IsFinishedGame b = false → IsFinishedGame b' = true →
     finish_time_ b' = t_finish).
Proof. apply call_timestamps. Qed.

(** X9: the elapsed time. It is zero before the game starts; while the
    game is in progress it grows with the clock; once the game is decided
    it is [finish_time_ - start_time_] whatever the clock reads and no
    later [OpenCell] or [MarkCell] changes it; and a game decided by the
    call that started it lasted from that call's first clock reading to
    its second. *)
Theorem X9_GetGameTime (now now' : time_t) b :
  (status_ b = NOT_STARTED → GetGameTime now b = 0%Z)
  ∧ (status_ b = IN_PROGRESS → (now ≤ now')%Z →
     (GetGameTime now b ≤ GetGameTime now' b)%Z)
  ∧ (IsFinishedGame b = true →
     GetGameTime now b = (finish_time_ b - start_time_ b)%Z
     ∧ ∀ t_start t_finish c b',
         OpenCell t_start t_finish c b = Returned b'
         ∨ MarkCell t_start c b = Returned b' →
         GetGameTime now' b' = GetGameTime now b)
  ∧ (∀ t_start t_finish c b',
       status_ b = NOT_STARTED →
       OpenCell t_start t_finish c b = Returned b' →
       IsFinishedGame b' = true →
       GetGameTime now b' = (t_finish - t_start)%Z).
Proof.
  split_and!.
  - unfold GetGameTime. by intros ->.
  - unfold GetGameTime. intros ->. lia.
  - intros Hf. apply IsFinishedGame_true in Hf as Hs.
    assert (Hfix : ∀ t, GetGameTime t b = (finish_time_ b - start_time_ b)%Z).
    { intros t. unfold GetGameTime. by destruct Hs as [-> | ->]. }
    split; [done|]. intros ts tf c b' Hcall.
    destruct (call_cases _ _ _ _ _ Hcall) as [->|(Hf' & _)]; [|congruence].
    by rewrite !Hfix.
  - intros ts tf c b' Hs Hopen Hfin.
    assert (Hcall : OpenCell ts tf c b = Returned b' ∨ MarkCell ts c b = Returned b')
      by (by left).
    assert (Hnf : IsFinishedGame b = false) by (apply IsFinishedGame_false; by left).
    assert (Hne : status_ b' ≠ NOT_STARTED).
    { apply IsFinishedGame_true in Hfin. destruct Hfin; congruence. }
    destruct (call_timestamps ts tf c b b' Hcall) as (_ & Hst & _ & Hft).
    unfold GetGameTime. rewrite (Hst Hs Hne), (Hft Hnf Hfin).
    apply IsFinishedGame_true in Hfin. by destruct Hfin as [-> | ->].
Qed.

(** ** What [MarkCell] and [OpenCell] leave alone *)

(** X10: [MarkCell] touches the flagged set at the given cell and nothing
    else but the start of the game: the closed set, the mine set, the
    sides, the finish time and the generator are kept, and so is the flag
    of every other cell. Flags do not depend on the cell being closed: an
    opened cell of a game not yet decided gets flagged too, and is then
    rendered as ['?']. *)
Theorem X10_MarkCell_frame now c b b' :
  MarkCell now c b = Returned b' →
  closed_cells_ b' = closed_cells_ b
  ∧ cells_with_mines_ b' = cells_with_mines_ b
  ∧ width_ b' = width_ b ∧ height_ b' = height_ b
  ∧ finish_time_ b' = finish_time_ b ∧ gen_ b' = gen_ b
  ∧ (∀ d, d ≠ c → d ∈ marked_cells_ b' ↔ d ∈ marked_cells_ b)
  ∧ (IsFinishedGame b = false → c ∉ closed_cells_ b → c ∉ marked_cells_ b →
     c ∈ marked_cells_ b' ∧ render_cell b' c = "?"%string).
Proof.
  intros Hmk.
  destruct (started_frame now b) as (Hw & Hh & Hmn & Hmk' & Hcl & Hg & Hft).
  destruct (MarkCell_cases now c b)
    as [(_ & Heq)|[(_ & Hf & Heq)|(_ & Hf & M & Heq & Hin & Hout)]];
    rewrite Heq in Hmk; [done|injection Hmk as <-|injection Hmk as <-].
  - split_and!; try done. congruence.
  - simpl. split_and!; try done.
    + intros d Hd. destruct (decide (c ∈ marked_cells_ b)) as [Hc|Hc].
      * rewrite (Hin Hc). set_solver.
      * rewrite (Hout Hc). set_solver.
    + intros _ Hopen Hc. rewrite (Hout Hc).
      split; [set_solver|].
      unfold render_cell, IsMine, IsMarked. simpl.
      rewrite (started_status now b Hf). simpl. rewrite andb_false_r.
      rewrite bool_decide_eq_true_2 by set_solver. done.
Qed.

(** X11: [OpenCell] only opens. It keeps the mine set, the flagged set,
    the sides and the generator; its closed set is contained in the one
    before; and every cell it opens is a cell of the grid that holds no
    mine and no flag. *)
Theorem X11_OpenCell_frame t_start t_finish c b b' :
  OpenCell t_start t_finish c b = Returned b' →
  cells_with_mines_ b' = cells_with_mines_ b
  ∧ marked_cells_ b' = marked_cells_ b
  ∧ width_ b' = width_ b ∧ height_ b' = height_ b ∧ gen_ b' = gen_ b
  ∧ closed_cells_ b' ⊆ closed_cells_ b
  ∧ ∀ d, d ∈ closed_cells_ b → d ∉ closed_cells_ b' →
      IsCorrectBoundary b d = true ∧ (d ∉ cells_with_mines_ b)
      ∧ (d ∉ marked_cells_ b).
Proof.
  intros Hop.
  destruct (started_frame t_start b) as (Hw & Hh & Hmn & Hmk & Hcl & Hg & _).
  destruct (OpenCell_cases t_start t_finish c b)
    as [(_ & Heq)|[(_ & _ & Heq)|[(_ & _ & _ & _ & _ & Heq)|
        (_ & _ & _ & _ & _ & X & HX & Hers & _ & Heq)]]];
    rewrite Heq in Hop; [done|injection Hop as <-..].
  - split_and!; done.
  - simpl. rewrite Hcl. split_and!; done.
  - assert (Hfr : ∀ A (f : Minesweeper G → A),
              (∀ t b0, f (set_finish VICTORY t b0) = f b0) →
              f (VictoryCheck t_finish (set_closed X (started t_start b)))
              = f (set_closed X (started t_start b))).
    { intros A f Hf. unfold VictoryCheck. by case_bool_decide. }
    rewrite (Hfr _ cells_with_mines_), (Hfr _ marked_cells_), (Hfr _ width_),
      (Hfr _ height_), (Hfr _ gen_), (Hfr _ closed_cells_) by done.
    simpl. split_and!; try done; [set_solver|].
    intros d Hd HdX. destruct (Hers d Hd HdX) as (? & ? & ?). done.
Qed.

Lemma OpenCell_noop t_start t_finish c b :
  IsCorrectBoundary b c = true →
  IsFinishedGame b = true ∨ c ∈ marked_cells_ b ∨ c ∉ closed_cells_ b →
  OpenCell t_start t_finish c b = Returned b.
Proof.
  intros Hb Hno. unfold OpenCell, IsOpened. rewrite Hb. simpl.
  destruct Hno as [->|[Hm%IsMarked_true|Hc]]; [done|..].
  - rewrite Hm. by rewrite orb_true_r.
  - assert (IsClosed b c = false) as ->.
    { apply not_true_iff_false. by rewrite IsClosed_true. }
    simpl. by rewrite !orb_true_r.
Qed.

(** X12: opening twice is opening once: after a returning [OpenCell] on a
    cell, a second [OpenCell] on the same cell, at any time, returns the
    very board the first one returned. *)
Theorem X12_OpenCell_idempotent t_start t_finish t_start' t_finish' c b b' :
  OpenCell t_start t_finish c b = Returned b' →
  OpenCell t_start' t_finish' c b' = Returned b'.
Proof.
  intros Hop.
  destruct (started_frame t_start b) as (Hw & Hh & Hmn & Hmk & Hcl & Hg & _).
  destruct (OpenCell_cases t_start t_finish c b)
    as [(_ & Heq)|[(Hb & Hno & Heq)|[(Hb & _ & _ & _ & _ & Heq)|
        (Hb & _ & _ & _ & _ & X & HX & _ & _ & Heq)]]];
    rewrite Heq in Hop; [done|injection Hop as <-..].
  - by apply OpenCell_noop.
  - apply OpenCell_noop.
    + rewrite <- Hb. by apply IsCorrectBoundary_ext.
    + left. apply IsFinishedGame_true. by right.
  - apply OpenCell_noop.
    + rewrite <- Hb. apply IsCorrectBoundary_ext;
        unfold VictoryCheck; by case_bool_decide.
    + right; right. unfold VictoryCheck. case_bool_decide; simpl; set_solver.
Qed.

(** X13: a cell with a mine around it does not cascade: [OpenCell] on a
    closed, unflagged cell without a mine, in a game not yet decided,
    whose count of mines around is not zero opens that cell and no other. *)
Theorem X13_numbered_cell_opens_alone t_start t_finish c b :
  IsCorrectBoundary b c = true → IsFinishedGame b = false →
  c ∉ marked_cells_ b → c ∈ closed_cells_ b → c ∉ cells_with_mines_ b →
  CalcMinesNear b c ≠ 0 →
  ∃ b', OpenCell t_start t_finish c b = Returned b'
    ∧ closed_cells_ b' = closed_cells_ b ∖ {[c]}.
Proof.
  intros Hb Hf Hmk Hcl Hnm Hnear.
  destruct (started_frame t_start b) as (Hw & Hh & Hmn & _ & Hcl' & _).
  destruct (OpenCell_cases t_start t_finish c b)
    as [(? & _)|[(_ & [?|[?|?]] & _)|[(_ & _ & _ & _ & ? & _)|
        (_ & _ & _ & _ & _ & X & _ & _ & Hrun & ->)]]]; try congruence; try done.
  eexists. split; [done|].
  assert (X = closed_cells_ b ∖ {[c]}) as ->.
  { destruct (size (closed_cells_ b)) as [|fuel] eqn:Hsz.
    { done. }
    simpl in Hrun.
    rewrite (CalcMinesNear_ext b) in Hrun by done.
    destruct (N.eqb_spec (CalcMinesNear b c) 0) as [|_]; [done|].
    simpl in Hrun. destruct fuel; simpl in Hrun; injection Hrun as Hrun;
      by symmetry. }
  unfold VictoryCheck. by case_bool_decide.
Qed.

(** X14: the winning move. When the mines are closed and the only other
    closed cell is an unflagged cell of the grid, [OpenCell] on that cell,
    in a game not yet decided, leaves exactly the mines closed, sets the
    status to VICTORY and the finish time to the reading of the clock. *)
Theorem X14_last_safe_cell_wins t_start t_finish c b :
  IsCorrectBoundary b c = true → IsFinishedGame b = false →
  c ∉ marked_cells_ b → c ∉ cells_with_mines_ b →
  closed_cells_ b = {[c]} ∪ cells_with_mines_ b →
  ∃ b', OpenCell t_start t_finish c b = Returned b'
    ∧ status_ b' = VICTORY ∧ finish_time_ b' = t_finish
    ∧ closed_cells_ b' = cells_with_mines_ b'.
Proof.
  intros Hb Hf Hmk Hnm Hcl.
  destruct (started_frame t_start b) as (Hw & Hh & Hmn & _ & Hcl' & _).
  destruct (OpenCell_cases t_start t_finish c b)
    as [(? & _)|[(_ & [?|[?|Hopen]] & _)|[(_ & _ & _ & _ & ? & _)|
        (_ & _ & _ & _ & _ & X & HX & Hers & _ & ->)]]]; try congruence; try done.
  { exfalso. apply Hopen. rewrite Hcl. set_solver. }
  assert (X = cells_with_mines_ b) as ->.
  { apply set_eq. intros d. split.
    - intros HdX. apply HX in HdX. rewrite Hcl in HdX. clear -HdX. set_solver.
    - intros Hd. destruct (decide (d ∈ X)) as [|Hn]; [done|]. exfalso.
      destruct (Hers d) as (_ & _ & ?); [|done|done].
      rewrite Hcl. clear -Hd. set_solver. }
  eexists. split; [done|]. unfold VictoryCheck. simpl. rewrite Hmn.
  rewrite bool_decide_eq_false_2 by (intros Hneq; by apply Hneq). done.
Qed.

(** ** The shape of a cascade *)

Lemma adjacent_true c d :
  adjacent c d = true ↔
  d ≠ c ∧ (Z.abs (Z.of_N (x d) - Z.of_N (x c)) ≤ 1)%Z
        ∧ (Z.abs (Z.of_N (y d) - Z.of_N (y c)) ≤ 1)%Z.
Proof.
  unfold adjacent. rewrite !andb_true_iff, bool_decide_eq_true, !Z.leb_le. tauto.
Qed.

(** The invariant of the loop behind the next two theorems: the queue
    holds opened cells of the grid; every cell opened since the start is
    the first cell or was visited around an opened cell with count zero;
    and every cell opened since the start is queued, or has mines around,
    or has every unflagged in-bounds cell around it opened. *)
Lemma flood_cascade (fuel : nat) c (C0 : gset Cell) b b' :
  IsCorrectBoundary b c = true → c ∈ C0 →
  flood fuel [c] (set_closed (C0 ∖ {[c]}) b) = Some b' →
  ∃ X, b' = set_closed X b ∧ X ⊆ C0 ∖ {[c]}
    ∧ (∀ d, d ∈ C0 → d ∉ X →
         d = c ∨ ∃ e, e ≠ d ∧ (e ∉ X) ∧ IsCorrectBoundary b e = true
                   ∧ IsCorrectBoundary b d = true
                   ∧ CalcMinesNear b e = 0 ∧ d ∈ neighbors e)
    ∧ (∀ d, d ∈ C0 → d ∉ X → CalcMinesNear b d = 0 →
         ∀ n, n ∈ neighbors d → IsCorrectBoundary b n = true →
              n ∉ marked_cells_ b → n ∉ X).
Proof.
  intros Hb Hc Hrun.
  eapply (flood_rule (λ q X,
      X ⊆ C0 ∖ {[c]}
      ∧ (∀ e, e ∈ q → (e ∉ X) ∧ IsCorrectBoundary b e = true)
      ∧ (∀ d, d ∈ C0 → d ∉ X →
           d = c ∨ ∃ e, e ≠ d ∧ (e ∉ X) ∧ IsCorrectBoundary b e = true
                     ∧ IsCorrectBoundary b d = true
                     ∧ CalcMinesNear b e = 0 ∧ d ∈ neighbors e)
      ∧ (∀ d, d ∈ C0 → d ∉ X →
           d ∈ q ∨ CalcMinesNear b d ≠ 0
           ∨ ∀ n, n ∈ neighbors d → IsCorrectBoundary b n = true →
                  n ∉ marked_cells_ b → n ∉ X))) in Hrun.
  - destruct Hrun as (X & -> & Hsub & _ & Hsound & Hfull).
    exists X. split_and!; try done.
    intros d Hd HdX H0. destruct (Hfull d Hd HdX) as [[]%elem_of_nil|[?|?]]; done.
  - intros cur q X (Hsub & Hq & Hsound & Hfull) Hne. split_and!; try done.
    + intros e He. apply Hq. by right.
    + intros d Hd HdX. destruct (Hfull d Hd HdX) as [[->|?]%elem_of_cons|[?|?]]; auto.
  - intros cur q X X' added (Hsub & Hq & Hsound & Hfull) H0 Hsub' Hadd Hin Hall.
    destruct (Hq cur) as [HcurX Hcurb]; [by left|].
    split_and!.
    + set_solver.
    + intros e [He|He]%elem_of_app.
      * destruct (Hq e) as [? ?]; [by right|]. split; [set_solver|done].
      * split; [by apply Hadd in He as [_ ?]|by apply Hin in He as (_ & ? & _)].
    + intros d Hd HdX'. destruct (decide (d ∈ X)) as [HdX|HdX].
      * right. exists cur.
        destruct (Hin d) as (Hn & Hdb & _); [by apply Hadd|].
        split_and!; try done; [congruence|set_solver].
      * destruct (Hsound d Hd HdX) as [->|(e & ? & ? & ? & ? & ? & ?)]; [by left|].
        right. exists e. split_and!; try done. set_solver.
    + intros d Hd HdX'. destruct (decide (d ∈ X)) as [HdX|HdX].
      * left. apply elem_of_app. right. by apply Hadd.
      * destruct (Hfull d Hd HdX) as [[->|?]%elem_of_cons|[?|Hnb]].
        -- right; right. intros n Hn Hnb Hnm. by apply Hall.
        -- left. apply elem_of_app. by left.
        -- by right; left.
        -- right; right. intros n Hn Hnb' Hnm HnX'. by apply (Hnb n Hn Hnb' Hnm), Hsub'.
  - split_and!; try done.
    + intros e ->%list_elem_of_singleton. split; [set_solver|done].
    + intros d Hd HdX. left. destruct (decide (d = c)); [done|set_solver].
    + intros d Hd HdX. left. apply list_elem_of_singleton.
      destruct (decide (d = c)); [done|set_solver].
Qed.

Lemma OpenCell_cascade t_start t_finish c b b' :
  OpenCell t_start t_finish c b = Returned b' →
  (∀ d, d ∈ closed_cells_ b → d ∉ closed_cells_ b' →
     d = c ∨ ∃ e, e ≠ d ∧ (e ∉ closed_cells_ b') ∧ IsCorrectBoundary b e = true
               ∧ IsCorrectBoundary b d = true
               ∧ CalcMinesNear b e = 0 ∧ d ∈ neighbors e)
  ∧ (∀ d, d ∈ closed_cells_ b → d ∉ closed_cells_ b' → CalcMinesNear b d = 0 →
       ∀ n, n ∈ neighbors d → IsCorrectBoundary b n = true →
            n ∉ marked_cells_ b → n ∉ closed_cells_ b').
Proof.
  intros Hop.
  destruct (started_frame t_start b) as (Hw & Hh & Hmn & Hmk & Hcl & _).
  destruct (OpenCell_cases t_start t_finish c b)
    as [(_ & Heq)|[(_ & _ & Heq)|[(_ & _ & _ & _ & _ & Heq)|
        (Hb & _ & _ & Hc & _ & X & _ & _ & Hrun & Heq)]]];
    rewrite Heq in Hop; [done|injection Hop as <-..].
  - split; intros d Hd Hnd; done.
  - simpl. rewrite Hcl. split; intros d Hd Hnd; done.
  - apply flood_cascade in Hrun as (X' & HX' & _ & Hsound & Hfull);
      [|by rewrite <- Hb; apply IsCorrectBoundary_ext|done].
    apply (f_equal closed_cells_) in HX'. simpl in HX'. subst X'.
    assert (Hbd : ∀ d, IsCorrectBoundary (started t_start b) d = IsCorrectBoundary b d).
    { intros d. by apply IsCorrectBoundary_ext. }
    assert (Hnear : ∀ d, CalcMinesNear (started t_start b) d = CalcMinesNear b d).
    { intros d. by apply CalcMinesNear_ext. }
    assert (closed_cells_ (VictoryCheck t_finish (set_closed X (started t_start b))) = X)
      as -> by (unfold VictoryCheck; by case_bool_decide).
    setoid_rewrite Hbd in Hsound. setoid_rewrite Hnear in Hsound.
    setoid_rewrite Hbd in Hfull. setoid_rewrite Hnear in Hfull.
    rewrite Hmk in Hfull. done.
Qed.

(** X15: a cascade only spreads from cells without mines around. Every
    cell that an [OpenCell] call opens is the cell of the call or is
    adjacent to a cell that is opened after the call and has no mine
    around it. *)
Theorem X15_cascade_spreads_from_zero_cells t_start t_finish c b b' :
  is_size_t (width_ b) → is_size_t (height_ b) →
  OpenCell t_start t_finish c b = Returned b' →
  ∀ d, d ∈ closed_cells_ b → d ∉ closed_cells_ b' →
    d = c ∨ ∃ e, adjacent e d = true ∧ IsCorrectBoundary b e = true
              ∧ (e ∉ closed_cells_ b') ∧ CalcMinesNear b e = 0.
Proof.
  intros Hw Hh Hop d Hd Hnd.
  destruct (proj1 (OpenCell_cascade _ _ _ _ _ Hop) d Hd Hnd)
    as [->|(e & Hne & He & Heb & Hdb & H0 & Hn)]; [by left|right].
  exists e. split_and!; try done.
  apply (in_bounds_neighbors b e d Hw Hh Heb Hdb) in Hn as [->|?]; done.
Qed.

(** X16: a cascade is complete. After an [OpenCell] call, around every
    cell that the call opened and that has no mine around it, every
    adjacent cell of the grid that is not flagged is opened. *)
Theorem X16_cascade_is_complete t_start t_finish c b b' :
  is_size_t (width_ b) → is_size_t (height_ b) →
  OpenCell t_start t_finish c b = Returned b' →
  ∀ d n, d ∈ closed_cells_ b → d ∉ closed_cells_ b' → CalcMinesNear b d = 0 →
    adjacent d n = true → IsCorrectBoundary b n = true →
    n ∉ marked_cells_ b → n ∉ closed_cells_ b'.
Proof.
  intros Hw Hh Hop d n Hd Hnd H0 Hadj Hnb Hnm.
  apply (proj2 (OpenCell_cascade _ _ _ _ _ Hop) d Hd Hnd H0 n); try done.
  assert (Hdb : IsCorrectBoundary b d = true).
  { destruct (proj1 (OpenCell_cascade _ _ _ _ _ Hop) d Hd Hnd)
      as [->|(_ & _ & _ & _ & ? & _)]; [|done].
    destruct (OpenCell_cases t_start t_finish c b)
      as [(_ & Heq)|[(? & _)|[(? & _)|(? & _)]]]; [|done..].
    by rewrite Heq in Hop. }
  apply (in_bounds_neighbors b d n Hw Hh Hdb Hnb). by right.
Qed.

(** ** Constructors *)

(** X17: the constructors build what [NewGame] builds. On an object whose
    generator is in the state the constructor starts with, the
    constructor with a mine count has the very outcome of [NewGame]; the
    one with a mine list returns the same boards and throws the same
    errors. *)
Theorem X17_constructors_agree_with_NewGame (width height mines_count : N)
    (cells : list Cell) b0 :
  Minesweeper_count width height mines_count (gen_ b0)
  = NewGame_count width height mines_count b0
  ∧ (∀ b, Minesweeper_list width height cells (gen_ b0) = Returned b ↔
          NewGame_list width height cells b0 = Returned b)
  ∧ (∀ what, (∃ b, Minesweeper_list width height cells (gen_ b0) = Thrown what b) ↔
             (∃ b, NewGame_list width height cells b0 = Thrown what b)).
Proof.
  split_and!; [done|apply Minesweeper_list_NewGame|].
  intros what. unfold Minesweeper_list, NewGame_list, FieldDefinition_list. simpl.
  destruct (_ <? _).
  { split; intros (? & [= <- _]); eauto. }
  change (forallb (IsCorrectBoundary (SetNewBoundary width height (ResetValues b0))) cells)
    with (forallb (IsCorrectBoundary
            (mkMinesweeper width height 0%Z 0%Z NOT_STARTED (list_to_set cells) ∅ ∅
               (gen_ b0))) cells).
  destruct (forallb _ cells).
  - split; intros (? & [=]).
  - split; intros (? & [= <- _]); eauto.
Qed.

(** ** More of what every reachable board satisfies *)

Lemma fresh_board_inv_flags (width height : N) b :
  fresh width height b → board_inv_flags b.
Proof.
  intros (_ & _ & Hs & Hst & Hft & Hmk & Hcl & _). split_and!.
  - intros c. rewrite Hmk. set_solver.
  - done.
  - intros _. split_and!; try done. intros c. apply Hcl.
Qed.

Lemma MarkCell_board_inv_flags now c b b' :
  board_inv_flags b → MarkCell now c b = Returned b' → board_inv_flags b'.
Proof.
  intros (Hmk & Hft & Hns) Hmark.
  destruct (started_frame now b) as (Hw & Hh & Hmn & Hmk' & Hcl & _ & Hft').
  destruct (MarkCell_cases now c b)
    as [(_ & Heq)|[(_ & _ & Heq)|(Hb & Hf & M & Heq & Hin & Hout)]];
    rewrite Heq in Hmark; [done|by injection Hmark as <-|injection Hmark as <-].
  assert (Hbd : ∀ d, IsCorrectBoundary (set_marked M (started now b)) d
                    = IsCorrectBoundary b d).
  { intros d. by apply IsCorrectBoundary_ext. }
  unfold board_inv_flags. setoid_rewrite Hbd. simpl.
  rewrite (started_status now b Hf), Hft'.
  assert (IsFinishedGame (set_marked M (started now b)) = false) as Hf'.
  { apply IsFinishedGame_false. right. simpl. by apply started_status. }
  split_and!; [|by intros _; apply Hft|done].
  intros d Hd. destruct (decide (c ∈ marked_cells_ b)) as [Hc|Hc].
  - rewrite (Hin Hc) in Hd. apply Hmk. set_solver.
  - rewrite (Hout Hc) in Hd. destruct (decide (d = c)) as [->|]; [done|].
    apply Hmk. set_solver.
Qed.

Lemma OpenCell_board_inv_flags t_start t_finish c b b' :
  board_inv_flags b → OpenCell t_start t_finish c b = Returned b' →
  board_inv_flags b'.
Proof.
  intros (Hmk & Hft & Hns) Hop.
  destruct (started_frame t_start b) as (Hw & Hh & Hmn & Hmk' & Hcl & _ & Hft').
  destruct (OpenCell_cases t_start t_finish c b)
    as [(_ & Heq)|[(_ & _ & Heq)|[(_ & Hf & _ & _ & _ & Heq)|
        (_ & Hf & _ & _ & _ & X & _ & _ & _ & Heq)]]];
    rewrite Heq in Hop; [done|by injection Hop as <-|injection Hop as <-..].
  - assert (Hbd : ∀ d, IsCorrectBoundary (Defeat t_finish (started t_start b)) d
                      = IsCorrectBoundary b d).
    { intros d. by apply IsCorrectBoundary_ext. }
    unfold board_inv_flags. setoid_rewrite Hbd. simpl. rewrite Hmk'.
    split_and!; done.
  - assert (Hbd : ∀ d, IsCorrectBoundary
                         (VictoryCheck t_finish (set_closed X (started t_start b))) d
                       = IsCorrectBoundary b d).
    { intros d. apply IsCorrectBoundary_ext; unfold VictoryCheck;
        by case_bool_decide. }
    pose proof (started_status t_start b Hf) as Hs.
    unfold board_inv_flags. setoid_rewrite Hbd.
    unfold VictoryCheck, IsFinishedGame. case_bool_decide; simpl; rewrite ?Hs, ?Hmk'.
    + split_and!; try done. intros _. rewrite Hft'. by apply Hft.
    + split_and!; done.
Qed.

Lemma reachable_board_inv_flags b : reachable b → board_inv_flags b.
Proof.
  induction 1 as [b0 w h m b Hw Hh Hnew|b0 w h cells b Hw Hh Hnew
                 |b ts tf cell b' _ IH Hop|b now cell b' _ IH Hmk].
  - apply NewGame_count_fresh in Hnew as (Hfresh & _).
    by apply (fresh_board_inv_flags w h).
  - apply NewGame_list_fresh in Hnew as (Hfresh & _).
    by apply (fresh_board_inv_flags w h).
  - by eapply OpenCell_board_inv_flags.
  - by eapply MarkCell_board_inv_flags.
Qed.

(** X18: on every reachable board the sides are [size_t] values and the
    mine, flagged and closed sets hold cells of the grid only; a game that
    is not decided has finish time zero; and a game that is NOT_STARTED is
    untouched: no flag, every cell of the grid closed, start time zero. *)
Theorem X18_reachable_boards_are_well_formed b :
  reachable b →
  is_size_t (width_ b) ∧ is_size_t (height_ b)
  ∧ (∀ c, c ∈ cells_with_mines_ b ∨ c ∈ marked_cells_ b ∨ c ∈ closed_cells_ b →
       x c < width_ b ∧ y c < height_ b)
  ∧ (IsFinishedGame b = false → finish_time_ b = 0%Z)
  ∧ (status_ b = NOT_STARTED →
     marked_cells_ b = ∅ ∧ start_time_ b = 0%Z
     ∧ ∀ c, c ∈ closed_cells_ b ↔ x c < width_ b ∧ y c < height_ b).
Proof.
  intros Hr.
  destruct (reachable_board_inv b Hr) as (Hw & Hh & Hm & Hcl & _).
  destruct (reachable_board_inv_flags b Hr) as (Hmk & Hft & Hns).
  split_and!; try done.
  - intros c [Hc|[Hc|Hc]]; apply IsCorrectBoundary_true; auto.
  - intros Hs. destruct (Hns Hs) as (? & ? & Hall). split_and!; try done.
    intros c. rewrite <- IsCorrectBoundary_true. split; auto.
Qed.

(** X19: in a won game exactly the mines are closed: on a reachable board
    with status VICTORY the closed set is the mine set, so every cell of
    the grid without a mine is opened. *)
Theorem X19_victory_leaves_the_mines b :
  reachable b → status_ b = VICTORY →
  closed_cells_ b = cells_with_mines_ b
  ∧ ∀ c, IsCorrectBoundary b c = true → c ∉ cells_with_mines_ b →
         IsOpened b c = true.
Proof.
  intros Hr Hs.
  destruct (reachable_board_inv b Hr) as (_ & _ & Hm & _ & Hv & _).
  destruct (Hv Hs) as (Hsz & _).
  assert (Heq : closed_cells_ b = cells_with_mines_ b).
  { symmetry. apply set_subseteq_size_eq; [done|lia]. }
  split; [done|]. intros c _ Hc. unfold IsOpened, IsClosed.
  rewrite Heq. by rewrite bool_decide_eq_false_2.
Qed.

(** X20: a new game is rendered all closed: after a successful [NewGame]
    with sides that are [size_t] values, every row of [RenderField] is
    [width] times the character ['-']. *)
Theorem X20_new_game_renders_closed (width height mines_count : N)
    (cells : list Cell) b0 b (row : N) :
  is_size_t width → is_size_t height →
  NewGame_count width height mines_count b0 = Returned b
  ∨ NewGame_list width height cells b0 = Returned b →
  row < height →
  RenderField b !! N.to_nat row
  = Some (string_of_list_ascii (replicate (N.to_nat width) "-"%char)).
Proof.
  intros Hw Hh Hnew Hrow.
  assert (Hfresh : fresh width height b).
  { destruct Hnew as [Hnew|Hnew]; [by apply NewGame_count_fresh in Hnew as (? & _)|
                                   by apply NewGame_list_fresh in Hnew as (? & _)]. }
  pose proof (fresh_board_inv width height b Hw Hh Hfresh) as Hinv.
  destruct Hfresh as (Hwb & Hhb & Hs & _ & _ & Hmk & Hcl & _).
  rewrite (RenderField_row b row Hinv) by (by rewrite Hhb).
  do 2 f_equal. rewrite <- Hwb, <- (length_range (width_ b)).
  apply const_fmap. intros i col Hcol%list_elem_of_lookup_2%elem_of_range.
  unfold cell_char.
  rewrite bool_decide_eq_false_2 by (rewrite Hs; by intros [_ ?]).
  rewrite bool_decide_eq_false_2 by (rewrite Hmk; set_solver).
  rewrite bool_decide_eq_true_2; [done|].
  apply Hcl, IsCorrectBoundary_true. simpl. by rewrite Hhb.
Qed.

End Properties.

(** * The claims on concrete boards *)

(** Closed membership facts on concrete boards are settled by evaluating
    their decision procedure. *)
Ltac by_evaluation := apply (bool_decide_unpack _); vm_compute; reflexivity.

Lemma small_is_size_t (n : N) : n < 1000 → is_size_t n.
Proof. unfold is_size_t, size_t_modulus. lia. Qed.



Lemma corner_2x2_reachable : reachable corner_2x2.
Proof.
  apply (reachable_NewGame_list blank 2 2 [mkCell 0 0]);
    [apply small_is_size_t; lia|apply small_is_size_t; lia|].
  vm_compute. reflexivity.
Defined.




Lemma C2_witness :
  IsCorrectBoundary corner_2x2 (mkCell 0 0) = true
  ∧ (∃ b', OpenCell 5%Z 7%Z (mkCell 0 0) corner_2x2 = Returned b'
       ∧ status_ b' = DEFEAT ∧ finish_time_ b' = 7%Z
       ∧ closed_cells_ b' = closed_cells_ corner_2x2
       ∧ cells_with_mines_ b' = cells_with_mines_ corner_2x2
       ∧ marked_cells_ b' = marked_cells_ corner_2x2)
  ∧ status_ lost_2x2 = DEFEAT
  ∧ OpenCell 8%Z 9%Z (mkCell 1 1) lost_2x2 = Returned lost_2x2
  ∧ MarkCell 8%Z (mkCell 1 1) lost_2x2 = Returned lost_2x2.
Proof.
  split_and!.
  - vm_compute. reflexivity.
  - apply (C2_defeat_is_terminal 5%Z 7%Z 0%Z (mkCell 0 0) corner_2x2).
    + vm_compute. reflexivity.
    + left. vm_compute. reflexivity.
    + by_evaluation.
    + by_evaluation.
    + by_evaluation.
  - vm_compute. reflexivity.
  - apply (C2_defeat_is_terminal 8%Z 9%Z 8%Z (mkCell 1 1) lost_2x2).
    + vm_compute. reflexivity.
    + right. vm_compute. reflexivity.
  - apply (C2_defeat_is_terminal 8%Z 9%Z 8%Z (mkCell 1 1) lost_2x2).
    + vm_compute. reflexivity.
    + right. vm_compute. reflexivity.
Defined.

Lemma C7_witness :
  IsCorrectBoundary centre_3x3 (mkCell 0 0) = true
  ∧ IsFinishedGame centre_3x3 = false
  ∧ (mkCell 0 0 ∉ marked_cells_ centre_3x3)
  ∧ ∃ b1, MarkCell 3%Z (mkCell 0 0) centre_3x3 = Returned b1
      ∧ mkCell 0 0 ∈ marked_cells_ b1
      ∧ (mkCell 0 0 ∈ closed_cells_ centre_3x3 ↔ mkCell 0 0 ∈ closed_cells_ b1)
      ∧ OpenCell 5%Z 7%Z (mkCell 0 0) b1 = Returned b1.
Proof.
  assert (H1 : IsCorrectBoundary centre_3x3 (mkCell 0 0) = true)
    by (vm_compute; reflexivity).
  assert (H2 : IsFinishedGame centre_3x3 = false) by (vm_compute; reflexivity).
  assert (H3 : mkCell 0 0 ∉ marked_cells_ centre_3x3).
  { by_evaluation. }
  split_and!; [exact H1|exact H2|exact H3|].
  exact (proj1 (proj2 (C7_flagged_cells_stay_closed 5%Z 7%Z (mkCell 0 0) centre_3x3))
           3%Z H1 H2 H3).
Defined.

Lemma C9_witness :
  IsCorrectBoundary centre_3x3 (mkCell 2 1) = true
  ∧ IsFinishedGame centre_3x3 = false
  ∧ ∃ b1 b2,
      MarkCell 3%Z (mkCell 2 1) centre_3x3 = Returned b1
      ∧ (mkCell 2 1 ∈ marked_cells_ b1 ↔ mkCell 2 1 ∉ marked_cells_ centre_3x3)
      ∧ (∀ d, d ≠ mkCell 2 1 → d ∈ marked_cells_ b1 ↔ d ∈ marked_cells_ centre_3x3)
      ∧ MarkCell 4%Z (mkCell 2 1) b1 = Returned b2
      ∧ marked_cells_ b2 = marked_cells_ centre_3x3.
Proof.
  assert (H1 : IsCorrectBoundary centre_3x3 (mkCell 2 1) = true)
    by (vm_compute; reflexivity).
  assert (H2 : IsFinishedGame centre_3x3 = false) by (vm_compute; reflexivity).
  split_and!; [exact H1|exact H2|].
  exact (C9_mark_twice 3%Z 4%Z (mkCell 2 1) centre_3x3 H1 H2).
Defined.

(** C3, as stated, fails: a [NewGame] with two mines on a 1x1 grid, called
    on the untouched 2x2 board, throws and leaves a board that is not the
    2x2 board any more. *)
Lemma C3_counterexample :
  ConfigError (NewGame_count 1 1 2 corner_2x2)
  ∧ ∃ what b', NewGame_count 1 1 2 corner_2x2 = Thrown what b'
      ∧ b' ≠ corner_2x2
      ∧ width_ b' = 1 ∧ width_ corner_2x2 = 2
      ∧ closed_cells_ b' = ∅ ∧ mkCell 0 0 ∈ closed_cells_ corner_2x2.
Proof.
  split; [eexists; left; vm_compute; reflexivity|].
  eexists _, _. split; [vm_compute; reflexivity|].
  split_and!.
  - intros Heq. apply (f_equal width_) in Heq. vm_compute in Heq. discriminate.
  - vm_compute. reflexivity.
  - vm_compute. reflexivity.
  - vm_compute. reflexivity.
  - by_evaluation.
Qed.

Lemma C3_witness :
  ConfigError (NewGame_count 1 1 2 corner_2x2)
  ∧ ∃ what, NewGame_count 1 1 2 corner_2x2
      = Thrown what (mkMinesweeper 1 1 0%Z 0%Z NOT_STARTED ∅ ∅ ∅ (gen_ corner_2x2)).
Proof.
  assert (H1 : ConfigError (NewGame_count 1 1 2 corner_2x2)).
  { eexists; left; vm_compute; reflexivity. }
  split; [exact H1|].
  exact (proj1 (C3_failed_NewGame_resets 1 1 2 [] corner_2x2) H1).
Defined.

(** C8, as stated, fails: on a grid of [2^32] by [2^32] cells the product
    of the sides wraps to zero in [size_t], so a set-up with a single mine,
    by count or by list, throws although one mine does not exceed
    [width * height] and the listed cell is inside the grid. *)
Lemma C8_counterexample :
  ConfigError (NewGame_count 4294967296 4294967296 1 blank)
  ∧ ConfigError (NewGame_list 4294967296 4294967296 [mkCell 0 0] blank)
  ∧ ¬ (4294967296 * 4294967296 < 1)
  ∧ is_size_t 4294967296
  ∧ x (mkCell 0 0) < 4294967296 ∧ y (mkCell 0 0) < 4294967296.
Proof.
  split_and!; try (vm_compute; reflexivity).
  - eexists; left; vm_compute; reflexivity.
  - eexists; left; vm_compute; reflexivity.
  - vm_compute. discriminate.
Qed.

Lemma C8_witness :
  size_t_mul 2 2 < 5 ∧ ConfigError (NewGame_count 2 2 5 blank)
  ∧ is_size_t (2 * 2) ∧ size_t_mul 2 2 = 2 * 2.
Proof.
  assert (H1 : size_t_mul 2 2 < 5) by (vm_compute; reflexivity).
  assert (H2 : is_size_t (2 * 2)) by (vm_compute; reflexivity).
  split_and!; [exact H1| |exact H2|].
  - exact (proj2 (proj1 (proj1 (C8_NewGame_config_errors 2 2 blank) 5)) H1).
  - exact (proj2 (proj2 (proj2 (C8_NewGame_config_errors 2 2 blank))) H2).
Defined.

Lemma two_mines_2x2_reachable : reachable two_mines_2x2.
Proof.
  apply (reachable_NewGame_list blank 2 2 [mkCell 0 0; mkCell 1 1]);
    [apply small_is_size_t; lia|apply small_is_size_t; lia|].
  vm_compute. reflexivity.
Defined.

Lemma flagged_lost_2x2_reachable : reachable flagged_lost_2x2.
Proof.
  apply (reachable_OpenCell flagged_2x2 5%Z 7%Z (mkCell 1 1)).
  - apply (reachable_MarkCell two_mines_2x2 3%Z (mkCell 0 0)).
    + exact two_mines_2x2_reachable.
    + vm_compute. reflexivity.
  - vm_compute. reflexivity.
Defined.

(** The rendering of the lost board: both mines shown, the flagged one too. *)
Example RenderField_flagged_lost_2x2 :
  RenderField flagged_lost_2x2 = ["*-"; "-*"]%string
  ∧ mkCell 0 0 ∈ marked_cells_ flagged_lost_2x2.
Proof. split; vm_compute; reflexivity. Qed.

(** The spec's 3x3 example as the code runs it: the corner next to the
    centre mine shows 1 and nothing cascades. *)
Example RenderField_centre_3x3_opened :
  RenderField (returned (OpenCell 5%Z 7%Z (mkCell 0 0) centre_3x3))
  = ["1--"; "---"; "---"]%string.
Proof. vm_compute. reflexivity. Qed.

Lemma C4_witness :
  is_size_t (width_ centre_3x3) ∧ is_size_t (height_ centre_3x3)
  ∧ IsCorrectBoundary centre_3x3 (mkCell 0 0) = true
  ∧ (mkCell 0 0 ∉ cells_with_mines_ centre_3x3)
  ∧ CalcMinesNear centre_3x3 (mkCell 0 0)
    = N.of_nat (neighbor_mine_count centre_3x3 (mkCell 0 0))
  ∧ (neighbor_mine_count centre_3x3 (mkCell 0%N 0%N) ≤ 8)%nat.
Proof.
  assert (H1 : is_size_t (width_ centre_3x3)) by (vm_compute; reflexivity).
  assert (H2 : is_size_t (height_ centre_3x3)) by (vm_compute; reflexivity).
  assert (H3 : IsCorrectBoundary centre_3x3 (mkCell 0 0) = true)
    by (vm_compute; reflexivity).
  assert (H4 : mkCell 0 0 ∉ cells_with_mines_ centre_3x3).
  { by_evaluation. }
  split_and!; [exact H1|exact H2|exact H3|exact H4|..].
  - exact (proj1 (C4_neighbor_mine_count centre_3x3 (mkCell 0 0) H1 H2 H3 H4)).
  - exact (proj2 (C4_neighbor_mine_count centre_3x3 (mkCell 0 0) H1 H2 H3 H4)).
Defined.

Lemma C5_witness :
  is_size_t 5 ∧ 0 < 5 ∧ x (mkCell 2 3) < 5 ∧ y (mkCell 2 3) < 5
  ∧ ∃ b b', NewGame_count 5 5 0 blank = Returned b
      ∧ cells_with_mines_ b = ∅
      ∧ (∀ d, d ∈ closed_cells_ b ↔ x d < 5 ∧ y d < 5)
      ∧ OpenCell 5%Z 7%Z (mkCell 2 3) b = Returned b'
      ∧ closed_cells_ b' = ∅ ∧ status_ b' = VICTORY.
Proof.
  assert (H1 : is_size_t 5) by (vm_compute; reflexivity).
  assert (H2 : 0 < 5) by (vm_compute; reflexivity).
  assert (H3 : x (mkCell 2 3) < 5) by (vm_compute; reflexivity).
  assert (H4 : y (mkCell 2 3) < 5) by (vm_compute; reflexivity).
  split_and!; [exact H1|exact H2|exact H3|exact H4|].
  exact (C5_zero_mines_one_click 5 5 5%Z 7%Z (mkCell 2 3) blank
           (NewGame_count 5 5 0 blank) H1 H1 H2 H2 H3 H4 (or_introl eq_refl)).
Defined.

Lemma C6_witness :
  reachable flagged_lost_2x2
  ∧ length (RenderField flagged_lost_2x2) = N.to_nat (height_ flagged_lost_2x2)
  ∧ (mkCell 0 0 ∈ cells_with_mines_ flagged_lost_2x2 →
     mkCell 0 0 ∈ marked_cells_ flagged_lost_2x2 →
     status_ flagged_lost_2x2 = DEFEAT →
     cell_char flagged_lost_2x2 (mkCell 0 0) = "*"%char).
Proof.
  split; [exact flagged_lost_2x2_reachable|]. split.
  - exact (proj1 (C6_RenderField_characters flagged_lost_2x2
                    flagged_lost_2x2_reachable)).
  - exact (proj2 (proj2 (C6_RenderField_characters flagged_lost_2x2
                           flagged_lost_2x2_reachable)) (mkCell 0 0)).
Defined.

(** * The further properties on concrete boards *)

Lemma empty_3x3_reachable : reachable empty_3x3.
Proof.
  apply (reachable_NewGame_list blank 3 3 []);
    [apply small_is_size_t; lia|apply small_is_size_t; lia|].
  vm_compute. reflexivity.
Defined.

Lemma won_3x3_reachable : reachable won_3x3.
Proof.
  apply (reachable_OpenCell empty_3x3 5%Z 7%Z (mkCell 0 0)).
  - exact empty_3x3_reachable.
  - vm_compute. reflexivity.
Defined.

Lemma NewGame_centre_3x3 : NewGame_list 3 3 [mkCell 1 1] blank = Returned centre_3x3.
Proof. vm_compute. reflexivity. Defined.

Lemma OpenCell_empty_3x3 :
  OpenCell 5%Z 7%Z (mkCell 0 0) empty_3x3 = Returned won_3x3.
Proof. vm_compute. reflexivity. Defined.

Lemma OpenCell_corner_2x2 :
  OpenCell 5%Z 7%Z (mkCell 0 0) corner_2x2 = Returned lost_2x2.
Proof. vm_compute. reflexivity. Defined.

Lemma empty_3x3_is_size_t :
  is_size_t (width_ empty_3x3) ∧ is_size_t (height_ empty_3x3).
Proof. split; vm_compute; reflexivity. Defined.

Lemma X1_witness :
  y (mkCell 3 4) < 1000000
  ∧ is_size_t (x (mkCell 3 4) * 1000000 + y (mkCell 3 4))
  ∧ CellHash (mkCell 3 4) = 3000004
  ∧ (CellHash (mkCell 3 4) = CellHash (mkCell 3 4) → mkCell 3 4 = mkCell 3 4).
Proof.
  assert (H1 : y (mkCell 3 4) < 1000000) by (vm_compute; reflexivity).
  assert (H2 : is_size_t (x (mkCell 3 4) * 1000000 + y (mkCell 3 4)))
    by (vm_compute; reflexivity).
  split_and!; [exact H1|exact H2|vm_compute; reflexivity|].
  exact (proj2 (proj2 (X1_Cell_equality_and_hash (mkCell 3 4) (mkCell 3 4)))
           H1 H1 H2 H2).
Defined.


Lemma X3_witness :
  OpenCell 5%Z 7%Z (mkCell 0 0) empty_3x3 ≠ OutOfFuel
  ∧ ∃ b', ∀ fuel,
      (length [mkCell 0%N 0%N] + size (closed_cells_ empty_3x3) ≤ fuel)%nat →
      flood fuel [mkCell 0 0] empty_3x3 = Some b'.
Proof. exact (X3_flood_terminates 5%Z 7%Z (mkCell 0 0) [mkCell 0 0] empty_3x3). Defined.

Lemma X4_witness :
  is_size_t (3 * 3) ∧ 2 ≤ 3 * 3
  ∧ ∃ b, NewGame_count 3 3 2 blank = Returned b
      ∧ size (cells_with_mines_ b) = N.to_nat 2
      ∧ ∀ c, c ∈ cells_with_mines_ b → x c < 3 ∧ y c < 3.
Proof.
  assert (H1 : is_size_t (3 * 3)) by (vm_compute; reflexivity).
  assert (H2 : 2 ≤ 3 * 3) by (vm_compute; discriminate).
  assert (H3 : 2 < 9223372036854775808) by (vm_compute; reflexivity).
  split_and!; [exact H1|exact H2|].
  exact (X4_NewGame_count_places_mines 3 3 2 blank H1 H2 H3).
Defined.

Lemma X5_witness :
  NewGame_list 3 3 [mkCell 1 1] blank = Returned centre_3x3
  ∧ (∀ c, c ∈ closed_cells_ centre_3x3 ↔ x c < 3 ∧ y c < 3)
  ∧ size (closed_cells_ centre_3x3) = (N.to_nat 3 * N.to_nat 3)%nat.
Proof.
  pose proof NewGame_centre_3x3 as H1.
  split; [exact H1|].
  exact (X5_NewGame_closes_the_grid 3 3 0 [mkCell 1 1] blank centre_3x3
           (or_intror H1)).
Defined.

Lemma X6_witness :
  NewGame_list 3 3 [mkCell 1 1] lost_2x2 = Returned centre_3x3
  ∧ status_ lost_2x2 = DEFEAT
  ∧ status_ centre_3x3 = NOT_STARTED ∧ finish_time_ centre_3x3 = 0%Z
  ∧ gen_ centre_3x3 = gen_ lost_2x2.
Proof.
  assert (H1 : NewGame_list 3 3 [mkCell 1 1] lost_2x2 = Returned centre_3x3)
    by (vm_compute; reflexivity).
  pose proof (proj1 (X6_NewGame_resets 3 3 0 [mkCell 1 1] lost_2x2 centre_3x3)
                (or_intror H1)) as (_ & _ & Hs & _ & Hft & _).
  split_and!; [exact H1|vm_compute; reflexivity|exact Hs|exact Hft|].
  exact (proj1 (proj2 (X6_NewGame_resets 3 3 0 [mkCell 1 1] lost_2x2 centre_3x3)) H1).
Defined.

Lemma X7_witness :
  OpenCell 5%Z 7%Z (mkCell 0 0) corner_2x2 = Returned lost_2x2
  ∧ (status_rank (status_ corner_2x2) ≤ status_rank (status_ lost_2x2))%nat.
Proof.
  pose proof OpenCell_corner_2x2 as H1.
  split; [exact H1|].
  exact (proj1 (X7_status_moves_forward 5%Z 7%Z (mkCell 0 0) corner_2x2 lost_2x2
                  (or_introl H1))).
Defined.

Lemma X8_witness :
  OpenCell 5%Z 7%Z (mkCell 0 0) corner_2x2 = Returned lost_2x2
  ∧ status_ corner_2x2 = NOT_STARTED ∧ status_ lost_2x2 ≠ NOT_STARTED
  ∧ start_time_ lost_2x2 = 5%Z
  ∧ IsFinishedGame corner_2x2 = false ∧ IsFinishedGame lost_2x2 = true
  ∧ finish_time_ lost_2x2 = 7%Z.
Proof.
  pose proof OpenCell_corner_2x2 as H1.
  assert (H2 : status_ corner_2x2 = NOT_STARTED) by (vm_compute; reflexivity).
  assert (H3 : status_ lost_2x2 ≠ NOT_STARTED) by (vm_compute; discriminate).
  assert (H4 : IsFinishedGame corner_2x2 = false) by (vm_compute; reflexivity).
  assert (H5 : IsFinishedGame lost_2x2 = true) by (vm_compute; reflexivity).
  pose proof (X8_timestamps_written_once 5%Z 7%Z (mkCell 0 0) corner_2x2 lost_2x2
                (or_introl H1)) as (_ & Hst & _ & Hft).
  split_and!; [exact H1|exact H2|exact H3|exact (Hst H2 H3)|exact H4|exact H5|
               exact (Hft H4 H5)].
Defined.

Lemma X9_witness :
  status_ corner_2x2 = NOT_STARTED
  ∧ OpenCell 5%Z 7%Z (mkCell 0 0) corner_2x2 = Returned lost_2x2
  ∧ IsFinishedGame lost_2x2 = true
  ∧ GetGameTime 100%Z lost_2x2 = (7 - 5)%Z.
Proof.
  assert (H1 : status_ corner_2x2 = NOT_STARTED) by (vm_compute; reflexivity).
  pose proof OpenCell_corner_2x2 as H2.
  assert (H3 : IsFinishedGame lost_2x2 = true) by (vm_compute; reflexivity).
  split_and!; [exact H1|exact H2|exact H3|].
  exact (proj2 (proj2 (proj2 (X9_GetGameTime 100%Z 100%Z corner_2x2)))
           5%Z 7%Z (mkCell 0 0) lost_2x2 H1 H2 H3).
Defined.

Lemma X10_witness :
  MarkCell 3%Z (mkCell 0 0) two_mines_2x2 = Returned flagged_2x2
  ∧ closed_cells_ flagged_2x2 = closed_cells_ two_mines_2x2
  ∧ cells_with_mines_ flagged_2x2 = cells_with_mines_ two_mines_2x2.
Proof.
  assert (H1 : MarkCell 3%Z (mkCell 0 0) two_mines_2x2 = Returned flagged_2x2)
    by (vm_compute; reflexivity).
  pose proof (X10_MarkCell_frame 3%Z (mkCell 0 0) two_mines_2x2 flagged_2x2 H1)
    as (Hcl & Hmn & _).
  split_and!; [exact H1|exact Hcl|exact Hmn].
Defined.

Lemma X11_witness :
  OpenCell 5%Z 7%Z (mkCell 0 0) empty_3x3 = Returned won_3x3
  ∧ marked_cells_ won_3x3 = marked_cells_ empty_3x3
  ∧ closed_cells_ won_3x3 ⊆ closed_cells_ empty_3x3.
Proof.
  pose proof OpenCell_empty_3x3 as H1.
  pose proof (X11_OpenCell_frame 5%Z 7%Z (mkCell 0 0) empty_3x3 won_3x3 H1)
    as (_ & Hmk & _ & _ & _ & Hcl & _).
  split_and!; [exact H1|exact Hmk|exact Hcl].
Defined.

Lemma X12_witness :
  OpenCell 5%Z 7%Z (mkCell 0 0) centre_3x3
  = Returned (returned (OpenCell 5%Z 7%Z (mkCell 0 0) centre_3x3))
  ∧ OpenCell 8%Z 9%Z (mkCell 0 0) (returned (OpenCell 5%Z 7%Z (mkCell 0 0) centre_3x3))
    = Returned (returned (OpenCell 5%Z 7%Z (mkCell 0 0) centre_3x3)).
Proof.
  assert (H1 : OpenCell 5%Z 7%Z (mkCell 0 0) centre_3x3
               = Returned (returned (OpenCell 5%Z 7%Z (mkCell 0 0) centre_3x3)))
    by (vm_compute; reflexivity).
  split; [exact H1|].
  exact (X12_OpenCell_idempotent 5%Z 7%Z 8%Z 9%Z (mkCell 0 0) centre_3x3 _ H1).
Defined.

Lemma X13_witness :
  IsCorrectBoundary centre_3x3 (mkCell 0 0) = true
  ∧ CalcMinesNear centre_3x3 (mkCell 0 0) ≠ 0
  ∧ ∃ b', OpenCell 5%Z 7%Z (mkCell 0 0) centre_3x3 = Returned b'
      ∧ closed_cells_ b' = closed_cells_ centre_3x3 ∖ {[mkCell 0 0]}.
Proof.
  assert (H1 : IsCorrectBoundary centre_3x3 (mkCell 0 0) = true)
    by (vm_compute; reflexivity).
  assert (H2 : IsFinishedGame centre_3x3 = false) by (vm_compute; reflexivity).
  assert (H3 : mkCell 0 0 ∉ marked_cells_ centre_3x3) by by_evaluation.
  assert (H4 : mkCell 0 0 ∈ closed_cells_ centre_3x3) by by_evaluation.
  assert (H5 : mkCell 0 0 ∉ cells_with_mines_ centre_3x3) by by_evaluation.
  assert (H6 : CalcMinesNear centre_3x3 (mkCell 0 0) ≠ 0) by (vm_compute; discriminate).
  split_and!; [exact H1|exact H6|].
  exact (X13_numbered_cell_opens_alone 5%Z 7%Z (mkCell 0 0) centre_3x3
           H1 H2 H3 H4 H5 H6).
Defined.

Lemma X14_witness :
  IsCorrectBoundary pair_2x1 (mkCell 1 0) = true
  ∧ closed_cells_ pair_2x1 = {[mkCell 1 0]} ∪ cells_with_mines_ pair_2x1
  ∧ ∃ b', OpenCell 5%Z 7%Z (mkCell 1 0) pair_2x1 = Returned b'
      ∧ status_ b' = VICTORY ∧ finish_time_ b' = 7%Z
      ∧ closed_cells_ b' = cells_with_mines_ b'.
Proof.
  assert (H1 : IsCorrectBoundary pair_2x1 (mkCell 1 0) = true)
    by (vm_compute; reflexivity).
  assert (H2 : IsFinishedGame pair_2x1 = false) by (vm_compute; reflexivity).
  assert (H3 : mkCell 1 0 ∉ marked_cells_ pair_2x1) by by_evaluation.
  assert (H4 : mkCell 1 0 ∉ cells_with_mines_ pair_2x1) by by_evaluation.
  assert (H5 : closed_cells_ pair_2x1 = {[mkCell 1 0]} ∪ cells_with_mines_ pair_2x1)
    by by_evaluation.
  split_and!; [exact H1|exact H5|].
  exact (X14_last_safe_cell_wins 5%Z 7%Z (mkCell 1 0) pair_2x1 H1 H2 H3 H4 H5).
Defined.

Lemma X15_witness :
  is_size_t (width_ empty_3x3) ∧ is_size_t (height_ empty_3x3)
  ∧ OpenCell 5%Z 7%Z (mkCell 0 0) empty_3x3 = Returned won_3x3
  ∧ mkCell 2 2 ∈ closed_cells_ empty_3x3 ∧ (mkCell 2 2 ∉ closed_cells_ won_3x3)
  ∧ (mkCell 2 2 = mkCell 0 0
     ∨ ∃ e, adjacent e (mkCell 2 2) = true ∧ IsCorrectBoundary empty_3x3 e = true
         ∧ (e ∉ closed_cells_ won_3x3) ∧ CalcMinesNear empty_3x3 e = 0).
Proof.
  destruct empty_3x3_is_size_t as [H1 H2].
  pose proof OpenCell_empty_3x3 as H3.
  assert (H4 : mkCell 2 2 ∈ closed_cells_ empty_3x3) by by_evaluation.
  assert (H5 : mkCell 2 2 ∉ closed_cells_ won_3x3) by by_evaluation.
  split_and!; [exact H1|exact H2|exact H3|exact H4|exact H5|].
  exact (X15_cascade_spreads_from_zero_cells 5%Z 7%Z (mkCell 0 0) empty_3x3 won_3x3
           H1 H2 H3 (mkCell 2 2) H4 H5).
Defined.

Lemma X16_witness :
  is_size_t (width_ empty_3x3) ∧ is_size_t (height_ empty_3x3)
  ∧ OpenCell 5%Z 7%Z (mkCell 0 0) empty_3x3 = Returned won_3x3
  ∧ CalcMinesNear empty_3x3 (mkCell 1 1) = 0
  ∧ adjacent (mkCell 1 1) (mkCell 2 2) = true
  ∧ (mkCell 2 2 ∉ closed_cells_ won_3x3).
Proof.
  destruct empty_3x3_is_size_t as [H1 H2].
  pose proof OpenCell_empty_3x3 as H3.
  assert (H4 : mkCell 1 1 ∈ closed_cells_ empty_3x3) by by_evaluation.
  assert (H5 : mkCell 1 1 ∉ closed_cells_ won_3x3) by by_evaluation.
  assert (H6 : CalcMinesNear empty_3x3 (mkCell 1 1) = 0) by (vm_compute; reflexivity).
  assert (H7 : adjacent (mkCell 1 1) (mkCell 2 2) = true) by (vm_compute; reflexivity).
  assert (H8 : IsCorrectBoundary empty_3x3 (mkCell 2 2) = true)
    by (vm_compute; reflexivity).
  assert (H9 : mkCell 2 2 ∉ marked_cells_ empty_3x3) by by_evaluation.
  split_and!; [exact H1|exact H2|exact H3|exact H6|exact H7|].
  exact (X16_cascade_is_complete 5%Z 7%Z (mkCell 0 0) empty_3x3 won_3x3
           H1 H2 H3 (mkCell 1 1) (mkCell 2 2) H4 H5 H6 H7 H8 H9).
Defined.

Lemma X17_witness :
  NewGame_list 3 3 [mkCell 1 1] blank = Returned centre_3x3
  ∧ Minesweeper_list 3 3 [mkCell 1 1] (gen_ blank) = Returned centre_3x3.
Proof.
  pose proof NewGame_centre_3x3 as H1.
  split; [exact H1|].
  exact (proj2 (proj1 (proj2 (X17_constructors_agree_with_NewGame 3 3 0
                                [mkCell 1 1] blank)) centre_3x3) H1).
Defined.

Lemma X18_witness :
  reachable flagged_lost_2x2
  ∧ is_size_t (width_ flagged_lost_2x2) ∧ is_size_t (height_ flagged_lost_2x2).
Proof.
  pose proof (X18_reachable_boards_are_well_formed flagged_lost_2x2
                flagged_lost_2x2_reachable) as (Hw & Hh & _).
  split_and!; [exact flagged_lost_2x2_reachable|exact Hw|exact Hh].
Defined.

Lemma X19_witness :
  reachable won_3x3 ∧ status_ won_3x3 = VICTORY
  ∧ closed_cells_ won_3x3 = cells_with_mines_ won_3x3.
Proof.
  assert (H1 : status_ won_3x3 = VICTORY) by (vm_compute; reflexivity).
  split_and!; [exact won_3x3_reachable|exact H1|].
  exact (proj1 (X19_victory_leaves_the_mines won_3x3 won_3x3_reachable H1)).
Defined.

Lemma X20_witness :
  is_size_t 3
  ∧ NewGame_list 3 3 [mkCell 1 1] blank = Returned centre_3x3
  ∧ 2 < 3
  ∧ RenderField centre_3x3 !! N.to_nat 2
    = Some (string_of_list_ascii (replicate (N.to_nat 3) "-"%char)).
Proof.
  assert (H1 : is_size_t 3) by (vm_compute; reflexivity).
  pose proof NewGame_centre_3x3 as H2.
  assert (H3 : 2 < 3) by (vm_compute; reflexivity).
  split_and!; [exact H1|exact H2|exact H3|].
  exact (X20_new_game_renders_closed 3 3 0 [mkCell 1 1] blank centre_3x3 2
           H1 H1 (or_intror H2) H3).
Defined.
